(** * CustomMatPlot: the shared data model of [cmp_datamodels.h]

  A shallow embedding of the value types of namespace [cmp]: the range
  pair [Lim<ValueType>], the marker descriptor [Marker] with its path
  builder [getMarkerPathFrom], and the [iota_delta] fill loops. *)

From Stdlib Require Import ZArith Bool Lia.
From Stdlib Require Import Floats.SpecFloat.
From stdpp Require Import base option list gmap.

Local Open Scope Z_scope.

(** ** IEEE-754 binary32: the C++ type [float] *)

Module F32.

Definition prec : Z := 24.
Definition emax : Z := 128.

Definition float := spec_float.

Definition valid (x : float) : bool := valid_binary prec emax x.

Definition of_Z (z : Z) : float := binary_normalize prec emax z 0 false.

Definition opp : float -> float := SFopp.
Definition add : float -> float -> float := SFadd prec emax.
Definition sub : float -> float -> float := SFsub prec emax.
Definition mul : float -> float -> float := SFmul prec emax.
Definition div : float -> float -> float := SFdiv prec emax.
Definition eqb : float -> float -> bool := SFeqb.
Definition neb (x y : float) : bool := negb (SFeqb x y).
Definition ltb : float -> float -> bool := SFltb.

Definition nan : float := S754_nan.

End F32.

(** ** Arithmetic value types: the template parameter [ValueType]

  [Lim<ValueType>] uses [static_cast<ValueType>(0)], [==], [!=] and [/]
  of its parameter. Division is partial: for the integer types the
  language leaves a zero divisor (and [INT_MIN / -1]) undefined, which is
  [None] here. For the built-in arithmetic types [!=] is the negation of
  [==]; [==] itself need not be reflexive (IEEE NaN). *)

Class Numeric (V : Type) := {
  vzero : V;
  veq : V -> V -> bool;
  vne : V -> V -> bool;
  vdiv : V -> V -> option V;
  vne_veq : forall x y, vne x y = negb (veq x y)
}.

#[export] Instance float_Numeric : Numeric F32.float := {|
  vzero := F32.of_Z 0;
  veq := F32.eqb;
  vne := F32.neb;
  vdiv x y := Some (F32.div x y);
  vne_veq x y := eq_refl
|}.

(** [int]: 32-bit two's complement, a [Z] in [-2^31, 2^31). *)
Module Int32.
Definition min_signed : Z := - 2 ^ 31.
Definition max_signed : Z := 2 ^ 31 - 1.
Definition in_range (z : Z) : bool := (min_signed <=? z) && (z <=? max_signed).
(** C++ division truncates toward zero, as [Z.quot] does. *)
Definition div (x y : Z) : option Z :=
  if y =? 0 then None
  else if in_range (Z.quot x y) then Some (Z.quot x y) else None.
End Int32.

#[export] Instance int_Numeric : Numeric Z := {|
  vzero := 0;
  veq := Z.eqb;
  vne x y := negb (Z.eqb x y);
  vdiv := Int32.div;
  vne_veq x y := eq_refl
|}.

(** ** [template <class ValueType> struct Lim] *)

Record Lim (V : Type) : Type := mkLim { min : V; max : V }.
Arguments mkLim {V} _ _.
Arguments min {V} _.
Arguments max {V} _.

(** [typedef Lim<float> Lim_f] *)
Definition Lim_f : Type := Lim F32.float.

(** Objects live in a store; a reference is the object's location. *)
Abbreviation loc := positive.

Section LimMembers.
Context {V : Type} `{Numeric V}.

Abbreviation store := (gmap loc (Lim V)).

(** A computation on the store that may be undefined. *)
Definition M (A : Type) : Type := store -> option (A * store).

Definition ret {A} (a : A) : M A := fun s => Some (a, s).
Definition bind {A B} (m : M A) (k : A -> M B) : M B :=
  fun s => match m s with
           | Some (a, s') => k a s'
           | None => None
           end.
Definition lift {A} (o : option A) : M A :=
  fun s => match o with Some a => Some (a, s) | None => None end.

Notation "'do' x <- m ; k" := (bind m (fun x => k))
  (at level 10, x name, m at level 100, k at level 200).
Notation "m ;; k" := (bind m (fun _ => k))
  (at level 100, k at level 200, right associativity).

Definition get_min (this : loc) : M V :=
  fun s => match s !! this with Some l => Some (min l, s) | None => None end.
Definition get_max (this : loc) : M V :=
  fun s => match s !! this with Some l => Some (max l, s) | None => None end.
Definition set_min (this : loc) (v : V) : M unit :=
  fun s => match s !! this with
           | Some l => Some (tt, <[this := mkLim v (max l)]> s)
           | None => None
           end.
Definition set_max (this : loc) (v : V) : M unit :=
  fun s => match s !! this with
           | Some l => Some (tt, <[this := mkLim (min l) v]> s)
           | None => None
           end.

(** [constexpr Lim<ValueType>& operator/=(const ValueType val)]:
    [min /= val; max /= val; return *this;]. [val] is passed by value,
    so it cannot alias a field of [*this]. *)
Definition op_div_assign (this : loc) (val : V) : M loc :=
  do mn <- get_min this;
  do q <- lift (vdiv mn val);
  set_min this q ;;
  do mx <- get_max this;
  do q <- lift (vdiv mx val);
  set_max this q ;;
  ret this.

(** [constexpr Lim<ValueType>& operator=(const Lim<ValueType> rhs)]:
    [min = rhs.min; max = rhs.max; return *this;]. [rhs] is a copy made
    by the caller. *)
Definition op_assign (this : loc) (rhs : Lim V) : M loc :=
  set_min this (min rhs) ;;
  set_max this (max rhs) ;;
  ret this.

(** The call site [lhs = rhs] for two objects of the store: the argument
    is copied out of [rhs] before the body runs. *)
Definition assign_stmt (lhs rhs : loc) : M loc :=
  fun s => match s !! rhs with
           | Some r => op_assign lhs r s
           | None => None
           end.

(** Default copy-assignment as the language defines it: memberwise copy
    of [rhs] into [*this], yielding [*this]. *)
Definition default_copy_assign (lhs rhs : loc) : M loc :=
  fun s => match s !! lhs, s !! rhs with
           | Some _, Some r => Some (lhs, <[lhs := r]> s)
           | _, _ => None
           end.

(** [bool operator==(const Lim<ValueType>& rhs) const noexcept] *)
Definition op_eq (this rhs : Lim V) : bool :=
  veq (min this) (min rhs) && veq (max this) (max rhs).

(** [bool operator!=(const Lim<ValueType>& rhs) const noexcept] *)
Definition op_ne (this rhs : Lim V) : bool :=
  vne (min this) (min rhs) || vne (max this) (max rhs).

(** [constexpr explicit operator bool() const noexcept] *)
Definition op_bool (this : Lim V) : bool :=
  let zero := vzero in
  vne (max this) zero || vne (min this) zero.

(** [constexpr bool isMinOrMaxZero() const noexcept] *)
Definition isMinOrMaxZero (this : Lim V) : bool :=
  let zero := vzero in
  veq (max this) zero || veq (min this) zero.

(** [Lim<ValueType> x;], default-initialisation. [Lim] declares one
    constructor, [Lim(ValueType new_min, ValueType new_max)], and so has
    no default constructor: the declaration is ill-formed and gives no
    object. *)
Definition Lim_default_init : option (Lim V) := None.

(** [template <class ValueType> constexpr Lim<ValueType>
    operator/(const Lim<ValueType>& rhs, const ValueType val)]:
    [Lim<ValueType> new_lim; new_lim.min = rhs.min / val;
    new_lim.max = rhs.max / val; return new_lim;]. [None]: the call has
    no value. *)
Definition op_div (rhs : Lim V) (val : V) : option (Lim V) :=
  match Lim_default_init with
  | Some new_lim =>
      match vdiv (min rhs) val with
      | Some mn =>
          let new_lim := mkLim mn (max new_lim) in
          match vdiv (max rhs) val with
          | Some mx =>
              let new_lim := mkLim (min new_lim) mx in
              Some new_lim
          | None => None
          end
      | None => None
      end
  | None => None
  end.

End LimMembers.

(** ** The host toolkit's geometry, as [Marker] uses it

    [juce::Point<float>] and [juce::Rectangle<float>] are plain value
    types; [juce::Path], [juce::AffineTransform] and [juce::Colour] belong
    to the toolkit and stay abstract: the marker builder is verified
    against every implementation of the calls it makes. The mutating
    members of [juce::Path] take the path and return the updated one. *)

Record Point : Type := mkPoint { px : F32.float; py : F32.float }.

Record Rectangle : Type :=
  mkRectangle { rx : F32.float; ry : F32.float; rw : F32.float; rh : F32.float }.

Class PathToolkit : Type := {
  Colour : Type;
  Path : Type;
  AffineTransform : Type;
  (** [juce::Path path;] *)
  Path_new : Path;
  (** [path.addEllipse (Rectangle<float>)] *)
  addEllipse : Rectangle -> Path -> Path;
  (** [path.addStar (centre, numberOfPoints, innerRadius, outerRadius)] *)
  addStar : Point -> Z -> F32.float -> F32.float -> Path -> Path;
  (** [path.addRectangle (x, y, width, height)] *)
  addRectangle : F32.float -> F32.float -> F32.float -> F32.float -> Path -> Path;
  (** [path.addTriangle (p1, p2, p3)] *)
  addTriangle : Point -> Point -> Point -> Path -> Path;
  (** [juce::AffineTransform::rotation (angle, pivotX, pivotY)] *)
  rotation : F32.float -> F32.float -> F32.float -> AffineTransform;
  (** [path.applyTransform (transform)] *)
  applyTransform : AffineTransform -> Path -> Path
}.

(** [juce::MathConstants<float>::pi]: the binary32 value nearest to pi,
    bit pattern [0x40490FDB]. *)
Definition pi : F32.float := S754_finite false 13176795 (-22).

(** [juce::PathStrokeType]: thickness, joint style and end-cap style. *)
Inductive JointStyle : Type := mitered | curved | beveled.
Inductive EndCapStyle : Type := butt | square | rounded.
Record PathStrokeType : Type :=
  mkPathStrokeType { thickness : F32.float; joint : JointStyle; endcap : EndCapStyle }.

(** ** [struct Marker] *)

(** [enum class Type]: a scoped enumeration over [int]; the enumerators are
    numbered from zero in declaration order, and a value of the type may be
    any [int]. *)
Definition MarkerType : Type := Z.
Definition Circle : MarkerType := 0.
Definition Pentagram : MarkerType := 1.
Definition Square : MarkerType := 2.
Definition UpTriangle : MarkerType := 3.
Definition RightTriangle : MarkerType := 4.
Definition DownTriangle : MarkerType := 5.
Definition LeftTriangle : MarkerType := 6.

Definition recognized (t : MarkerType) : bool := (0 <=? t) && (t <=? 6).

Section MarkerPath.
Context {JUCE : PathToolkit}.

Record Marker : Type := mkMarker {
  type : MarkerType;
  EdgeColour : option Colour;
  FaceColour : option Colour;
  edge_stroke_type : PathStrokeType
}.

(** [Marker(const Marker::Type t) : type{t} {}]: the colours are unset and
    the stroke is the member initialiser [{1.0f, mitered, rounded}]. *)
Definition Marker_of_type (t : MarkerType) : Marker :=
  {| type := t;
     EdgeColour := None;
     FaceColour := None;
     edge_stroke_type := mkPathStrokeType (F32.of_Z 1) mitered rounded |}.

(** The three vertices the lambda [addUpTriangleTo] passes to
    [addTriangle]; [-length / 2.0f] negates first, then divides. *)
Definition upTriangleVertices (length : F32.float) : Point * Point * Point :=
  let two := F32.of_Z 2 in
  (mkPoint (F32.of_Z 0) (F32.div (F32.opp length) two),
   mkPoint (F32.div (F32.opp length) two) (F32.div length two),
   mkPoint (F32.div length two) (F32.div length two)).

Definition addUpTriangleTo (length : F32.float) (path : Path) : Path :=
  let '(p1, p2, p3) := upTriangleVertices length in
  addTriangle p1 p2 p3 path.

(** [static juce::Path getMarkerPathFrom(Marker marker, const float length)] *)
Definition getMarkerPathFrom (marker : Marker) (length : F32.float) : Path :=
  let two := F32.of_Z 2 in
  let path := Path_new in
  match type marker with
  | 0 (* Circle *) =>
      addEllipse
        (mkRectangle (F32.div (F32.opp length) two) (F32.div (F32.opp length) two)
                     length length) path
  | 1 (* Pentagram *) =>
      addStar (mkPoint (F32.of_Z 0) (F32.of_Z 0)) 5
              (F32.div length (F32.of_Z 4)) (F32.div length two) path
  | 2 (* Square *) =>
      addRectangle (F32.div (F32.opp length) two) (F32.div (F32.opp length) two)
                   length length path
  | 3 (* UpTriangle *) =>
      addUpTriangleTo length path
  | 4 (* RightTriangle *) =>
      let path := addUpTriangleTo length path in
      applyTransform (rotation (F32.div pi two) (F32.of_Z 0) (F32.of_Z 0)) path
  | 5 (* DownTriangle *) =>
      let path := addUpTriangleTo length path in
      applyTransform (rotation pi (F32.of_Z 0) (F32.of_Z 0)) path
  | 6 (* LeftTriangle *) =>
      let path := addUpTriangleTo length path in
      applyTransform
        (rotation (F32.div (F32.mul pi (F32.of_Z 3)) two) (F32.of_Z 0) (F32.of_Z 0))
        path
  | _ => path
  end.

End MarkerPath.

(** A toolkit that only records the calls made on a path, oldest first;
    colours are 32-bit ARGB words. *)
Inductive PathCall : Type :=
  | CallEllipse (area : Rectangle)
  | CallStar (centre : Point) (numberOfPoints : Z) (innerRadius outerRadius : F32.float)
  | CallRectangle (x y w h : F32.float)
  | CallTriangle (p1 p2 p3 : Point)
  | CallTransform (angle pivotX pivotY : F32.float).

Definition recording : PathToolkit := {|
  Colour := Z;
  Path := list PathCall;
  AffineTransform := F32.float * F32.float * F32.float;
  Path_new := [];
  addEllipse r p := p ++ [CallEllipse r];
  addStar c n i o p := p ++ [CallStar c n i o];
  addRectangle x y w h p := p ++ [CallRectangle x y w h];
  addTriangle a b c p := p ++ [CallTriangle a b c];
  rotation a x y := (a, x, y);
  applyTransform t p := let '(a, x, y) := t in p ++ [CallTransform a x y]
|}.

(** In a recorded path: a call that adds a shape, and a path that is one
    shape followed by transforms only. *)
Definition isShapeCall (c : PathCall) : bool :=
  match c with
  | CallTransform _ _ _ => false
  | _ => true
  end.

Definition oneShapeThenTransforms (path : list PathCall) : bool :=
  match path with
  | [] => false
  | c :: rest => isShapeCall c && forallb (fun c' => negb (isShapeCall c')) rest
  end.

(** The half extent [size / 2.0f] of a marker and its mirror image
    [-size / 2.0f]. *)
Definition halfOf (size : F32.float) : F32.float := F32.div size (F32.of_Z 2).
Definition negHalfOf (size : F32.float) : F32.float := F32.div (F32.opp size) (F32.of_Z 2).

(** The sizes whose half is exact in binary32: positive and finite, with
    an exponent above the least one or with an even significand. These
    are all sizes from [2^-125] up to the largest finite one, and the
    even multiples of [2^-149] below. *)
Definition exactHalf (size : F32.float) : bool :=
  match size with
  | S754_finite false m e =>
      bounded F32.prec F32.emax m e &&
      ((-149 <? e) || match m with xO _ => true | _ => false end)
  | _ => false
  end.

(** [r] is the [size] by [size] box centred at the origin: it is [size]
    wide and [size] high, and its far edges [x + width] and [y + height]
    are the mirror images of its near edges [x] and [y]. *)
Definition isCentredBox (size : F32.float) (r : Rectangle) : Prop :=
  rw r = size /\ rh r = size /\
  F32.add (rx r) (rw r) = F32.opp (rx r) /\
  F32.add (ry r) (rh r) = F32.opp (ry r).

(** A star about the origin with inner radius [size/4] and outer radius
    [size/2], so [size] across. *)
Definition isCentredStar (size : F32.float) (centre : Point)
    (innerRadius outerRadius : F32.float) : Prop :=
  centre = mkPoint (F32.of_Z 0) (F32.of_Z 0) /\
  innerRadius = F32.div size (F32.of_Z 4) /\
  outerRadius = F32.div size (F32.of_Z 2) /\
  F32.add outerRadius outerRadius = size.

(** An isoceles triangle centred at the origin, apex at the top and base
    at the bottom, [size] wide and [size] high: the apex sits on the
    vertical axis, the base is horizontal with its corners mirror images
    of each other, the apex level is the mirror image of the base level
    and lies above it, and the base is [size] long and [size] below the
    apex. Screen coordinates: [y] grows downwards. *)
Definition isApexUpIsoceles (size : F32.float) (apex b1 b2 : Point) : Prop :=
  px apex = F32.of_Z 0 /\
  py b1 = py b2 /\
  px b1 = F32.opp (px b2) /\
  py apex = F32.opp (py b1) /\
  F32.ltb (py apex) (py b1) = true /\
  F32.sub (px b2) (px b1) = size /\
  F32.sub (py b1) (py apex) = size.

(** The construction of the four basic shapes, as the component design
    describes it, at one [size]. *)
Definition shapesAsDesigned {JUCE : PathToolkit} (size : F32.float) : Prop :=
  let box := mkRectangle (negHalfOf size) (negHalfOf size) size size in
  let centre := mkPoint (F32.of_Z 0) (F32.of_Z 0) in
  let innerRadius := F32.div size (F32.of_Z 4) in
  let outerRadius := F32.div size (F32.of_Z 2) in
  (getMarkerPathFrom (Marker_of_type Circle) size = addEllipse box Path_new /\
   isCentredBox size box) /\
  (getMarkerPathFrom (Marker_of_type Pentagram) size
     = addStar centre 5 innerRadius outerRadius Path_new /\
   isCentredStar size centre innerRadius outerRadius) /\
  (getMarkerPathFrom (Marker_of_type Square) size
     = addRectangle (rx box) (ry box) (rw box) (rh box) Path_new /\
   isCentredBox size box) /\
  (let '(apex, b1, b2) := upTriangleVertices size in
   getMarkerPathFrom (Marker_of_type UpTriangle) size
     = addTriangle apex b1 b2 Path_new /\
   isApexUpIsoceles size apex b1 b2).

(** [path] turned about the origin by [angle] radians. *)
Definition rotatedAboutOrigin {JUCE : PathToolkit} (angle : F32.float) (path : Path) : Path :=
  applyTransform (rotation angle (F32.of_Z 0) (F32.of_Z 0)) path.

(** A quarter, a half and three quarters of a turn, as the builder
    computes them from [pi]. *)
Definition deg90 : F32.float := F32.div pi (F32.of_Z 2).
Definition deg180 : F32.float := pi.
Definition deg270 : F32.float := F32.div (F32.mul pi (F32.of_Z 3)) (F32.of_Z 2).

(** ** [iota_delta]

    The value type needs [+=], taken total here: IEEE addition and the
    modular addition of the unsigned types. *)

Class Additive (V : Type) := { vadd : V -> V -> V }.

#[export] Instance float_Additive : Additive F32.float := {| vadd := F32.add |}.

(** [uint32_t]: an [N] below [2^32], addition wraps around. *)
#[export] Instance uint32_Additive : Additive N :=
  {| vadd x y := ((x + y) mod 2 ^ 32)%N |}.

(** How a call ends. [OutOfFuel] belongs to the model only: the loop is
    run for a bounded number of iterations. *)
Inductive outcome (A : Type) : Type :=
  | Returned (a : A)
  | Threw_bad_function_call
  | Undefined
  | OutOfFuel.
Arguments Returned {A} _.
Arguments Threw_bad_function_call {A}.
Arguments Undefined {A}.
Arguments OutOfFuel {A}.

Section IotaDelta.
Context {V : Type} `{Additive V}.

(** [std::function<ValueType(ValueType)>]: empty, or holding a target. *)
Definition std_function : Type := option (V -> V).

(** [iota_delta(first, last, x0, dx)]. The iterators are positions in the
    sequence [buf]; writing through a position past its end is undefined.
    [while (first != last) { *first++ = x0; x0 += dx; }] *)
Fixpoint iota_delta (fuel : nat) (first last : nat) (x0 dx : V) (buf : list V)
  : outcome (list V) :=
  match fuel with
  | O => OutOfFuel
  | S fuel' =>
      if decide (first <> last) then
        if decide (first < length buf)%nat then
          let buf := <[first := x0]> buf in
          let first := S first in
          let x0 := vadd x0 dx in
          iota_delta fuel' first last x0 dx buf
        else Undefined
      else Returned buf
  end.

(** [iota_delta(first, last, x0, dx, f)]:
    [while (first != last) { *first++ = f(x0); x0 += dx; }]; calling an
    empty [f] throws. *)
Fixpoint iota_delta_f (fuel : nat) (first last : nat) (x0 dx : V) (f : std_function)
  (buf : list V) : outcome (list V) :=
  match fuel with
  | O => OutOfFuel
  | S fuel' =>
      if decide (first <> last) then
        match f with
        | None => Threw_bad_function_call
        | Some target =>
            if decide (first < length buf)%nat then
              let buf := <[first := target x0]> buf in
              let first := S first in
              let x0 := vadd x0 dx in
              iota_delta_f fuel' first last x0 dx f buf
            else Undefined
        end
      else Returned buf
  end.

(** [x0] with [dx] added [i] times. *)
Fixpoint nthValue (i : nat) (x0 dx : V) : V :=
  match i with
  | O => x0
  | S k => vadd (nthValue k x0 dx) dx
  end.

End IotaDelta.

(** * Properties *)

(** ** [Lim] *)

Section LimFacts.
Context {V : Type} `{Numeric V}.
Implicit Types (s : gmap loc (Lim V)) (this lhs rhs : loc) (l r : Lim V).

Lemma set_min_run s this l v :
  s !! this = Some l ->
  set_min this v s = Some (tt, <[this := mkLim v (max l)]> s).
Proof. intros E. unfold set_min. now rewrite E. Qed.

Lemma set_max_run s this l v :
  s !! this = Some l ->
  set_max this v s = Some (tt, <[this := mkLim (min l) v]> s).
Proof. intros E. unfold set_max. now rewrite E. Qed.

Lemma op_assign_run s this l r :
  s !! this = Some l ->
  op_assign this r s = Some (this, <[this := r]> s).
Proof.
  intros E. unfold op_assign, bind.
  rewrite (set_min_run s this l) by exact E.
  rewrite (set_max_run _ this (mkLim (min r) (max l))) by apply lookup_insert_eq.
  rewrite insert_insert_eq. destruct r; reflexivity.
Qed.

Lemma op_assign_dangling s this r :
  s !! this = None -> op_assign this r s = None.
Proof. intros E. unfold op_assign, bind, set_min. now rewrite E. Qed.

Lemma op_div_assign_run s this l val mn mx :
  s !! this = Some l ->
  vdiv (min l) val = Some mn ->
  vdiv (max l) val = Some mx ->
  op_div_assign this val s = Some (this, <[this := mkLim mn mx]> s).
Proof.
  intros E Hmn Hmx. unfold op_div_assign, bind, get_min, get_max, lift.
  rewrite E, Hmn.
  rewrite (set_min_run s this l) by exact E.
  rewrite lookup_insert_eq. cbn [max min]. rewrite Hmx.
  rewrite (set_max_run _ this (mkLim mn (max l))) by apply lookup_insert_eq.
  now rewrite insert_insert_eq.
Qed.

(** The free [operator/] never gets past its first declaration. *)
Lemma op_div_no_value l val : op_div l val = None.
Proof. reflexivity. Qed.

Lemma veq_false_vne x y : veq x y = false <-> vne x y = true.
Proof. rewrite vne_veq. destruct (veq x y); simpl; intuition congruence. Qed.

Lemma veq_true_vne x y : veq x y = true <-> vne x y = false.
Proof. rewrite vne_veq. destruct (veq x y); simpl; intuition congruence. Qed.

End LimFacts.

(** C1. The free [operator/] does not divide a [Lim]: its local
    [new_lim] is default-initialised, which [Lim] does not allow, so
    [lim / val] has no value for any range and scalar,
    [Lim<float>(10,20) / 2] included. The member [operator/=] does divide
    both bounds there and leaves [Lim<float>(5,10)]. *)
Theorem Lim_operator_div_has_no_value :
  (forall (V : Type) (NV : Numeric V) (lim : Lim V) (val : V),
      op_div lim val = None) /\
  op_div (mkLim (F32.of_Z 10) (F32.of_Z 20) : Lim F32.float) (F32.of_Z 2) = None /\
  (let s : gmap loc (Lim F32.float) :=
     {[ 1%positive := mkLim (F32.of_Z 10) (F32.of_Z 20) ]} in
   op_div_assign 1%positive (F32.of_Z 2) s
   = Some (1%positive, <[1%positive := mkLim (F32.of_Z 5) (F32.of_Z 10)]> s)).
Proof.
  split; [intros V NV lim val; apply op_div_no_value |].
  split; [reflexivity |].
  intros s.
  apply op_div_assign_run with (l := mkLim (F32.of_Z 10) (F32.of_Z 20)).
  - vm_compute. reflexivity.
  - vm_compute. reflexivity.
  - vm_compute. reflexivity.
Qed.

(** C4. The conversion to [bool] is false exactly when both [min] and
    [max] compare equal to zero, and true otherwise; [Lim<float>(0,0)]
    converts to false and [Lim<float>(0,5)] to true. *)
Theorem Lim_bool_false_iff_both_zero :
  (forall (V : Type) (NV : Numeric V) (lim : Lim V),
      (op_bool lim = false <->
         veq (min lim) vzero = true /\ veq (max lim) vzero = true) /\
      (op_bool lim = true <->
         ~ (veq (min lim) vzero = true /\ veq (max lim) vzero = true))) /\
  op_bool (mkLim (F32.of_Z 0) (F32.of_Z 0) : Lim_f) = false /\
  op_bool (mkLim (F32.of_Z 0) (F32.of_Z 5) : Lim_f) = true.
Proof.
  split; [| split; reflexivity].
  intros V NV lim.
  assert (Hfalse : op_bool lim = false <->
            veq (min lim) vzero = true /\ veq (max lim) vzero = true).
  { unfold op_bool. cbv zeta. rewrite orb_false_iff.
    rewrite <- !veq_true_vne. tauto. }
  split; [exact Hfalse |].
  rewrite <- Hfalse. destruct (op_bool lim); intuition congruence.
Qed.

(** C5. [isMinOrMaxZero()] is true exactly when at least one of [min] and
    [max] compares equal to zero; true for [Lim<float>(0,5)], false for
    [Lim<float>(1,5)]. *)
Theorem isMinOrMaxZero_iff_some_zero :
  (forall (V : Type) (NV : Numeric V) (lim : Lim V),
      isMinOrMaxZero lim = true <->
        veq (min lim) vzero = true \/ veq (max lim) vzero = true) /\
  isMinOrMaxZero (mkLim (F32.of_Z 0) (F32.of_Z 5) : Lim_f) = true /\
  isMinOrMaxZero (mkLim (F32.of_Z 1) (F32.of_Z 5) : Lim_f) = false.
Proof.
  split; [| split; reflexivity].
  intros V NV lim. unfold isMinOrMaxZero. cbv zeta.
  rewrite orb_true_iff. tauto.
Qed.

(** For [float], comparing equal to zero means being one of the two
    zeros; for [int] it means being [0]. *)
Lemma float_veq_zero (x : F32.float) :
  veq x vzero = true <-> exists sign, x = S754_zero sign.
Proof.
  split.
  - destruct x as [sx | sx | | sx m e]; try (now exists sx); try discriminate.
    + destruct sx; discriminate.
    + destruct sx; discriminate.
  - intros [sign ->]. reflexivity.
Qed.

Lemma int_veq_zero (x : Z) : veq x vzero = true <-> x = 0.
Proof. apply Z.eqb_eq. Qed.

(** [==] on floats is reflexive on everything but NaN. *)
Lemma float_veq_refl (x : F32.float) : x <> F32.nan -> veq x x = true.
Proof.
  intros Hx. destruct x as [sx | sx | | sx m e]; try reflexivity.
  - destruct sx; reflexivity.
  - contradiction.
  - cbn. unfold F32.eqb, SFeqb, SFcompare.
    destruct sx; rewrite Z.compare_refl, Pos.compare_cont_refl; reflexivity.
Qed.

(** A negative zero is still zero to both tests; a NaN is not. *)
Example Lim_f_negative_zero :
  op_bool (mkLim (S754_zero true) (F32.of_Z 0) : Lim_f) = false /\
  isMinOrMaxZero (mkLim (S754_zero true) (F32.of_Z 5) : Lim_f) = true.
Proof. split; reflexivity. Qed.

Example Lim_f_nan :
  op_bool (mkLim F32.nan F32.nan : Lim_f) = true /\
  isMinOrMaxZero (mkLim F32.nan F32.nan : Lim_f) = false.
Proof. split; reflexivity. Qed.

(** [rhs == rhs] holds for every [Lim<int>], and for every [Lim<float>]
    without a NaN bound. *)
Lemma op_eq_refl_int (r : Lim Z) : op_eq r r = true.
Proof. unfold op_eq. cbn [veq int_Numeric]. now rewrite !Z.eqb_refl. Qed.

Lemma op_eq_refl_float (r : Lim F32.float) :
  min r <> F32.nan -> max r <> F32.nan -> op_eq r r = true.
Proof.
  intros Hmin Hmax. unfold op_eq.
  now rewrite (float_veq_refl _ Hmin), (float_veq_refl _ Hmax).
Qed.

(** The assignment statement of the source and default copy-assignment
    are one and the same computation. *)
Lemma assign_stmt_is_default_copy {V : Type} `{Numeric V}
    (s : gmap loc (Lim V)) (lhs rhs : loc) :
  assign_stmt lhs rhs s = default_copy_assign lhs rhs s.
Proof.
  unfold assign_stmt, default_copy_assign.
  destruct (s !! rhs) as [r |] eqn:Er.
  - destruct (s !! lhs) as [l |] eqn:El.
    + now apply op_assign_run with (l := l).
    + now apply op_assign_dangling.
  - now destruct (s !! lhs).
Qed.

(** C9, as stated, fails for [Lim<float>]: after [lhs = rhs] with a NaN
    bound in [rhs] the fields of [lhs] are those of [rhs], and yet
    [lhs == rhs] is false. *)
Lemma assign_nan_then_not_equal :
  let rhs_val : Lim F32.float := mkLim F32.nan (F32.of_Z 0) in
  let s : gmap loc (Lim F32.float) :=
    <[2%positive := rhs_val]> {[ 1%positive := mkLim (F32.of_Z 1) (F32.of_Z 2) ]} in
  exists s' l' r',
    assign_stmt 1%positive 2%positive s = Some (1%positive, s') /\
    s' !! 1%positive = Some l' /\ s' !! 2%positive = Some r' /\
    l' = r' /\ op_eq l' r' = false.
Proof.
  intros rhs_val s.
  exists (<[1%positive := rhs_val]> s), rhs_val, rhs_val.
  assert (E2 : s !! 2%positive = Some rhs_val) by apply lookup_insert_eq.
  assert (E1 : s !! 1%positive = Some (mkLim (F32.of_Z 1) (F32.of_Z 2))).
  { unfold s. rewrite lookup_insert_ne by discriminate. apply lookup_singleton_eq. }
  split; [| split; [| split; [| split]]].
  - unfold assign_stmt. rewrite E2.
    now apply op_assign_run with (l := mkLim (F32.of_Z 1) (F32.of_Z 2)).
  - apply lookup_insert_eq.
  - rewrite lookup_insert_ne by discriminate. exact E2.
  - reflexivity.
  - reflexivity.
Qed.

(** C9, amended. [operator=] is default copy-assignment: for two live
    objects it returns [lhs], leaves [lhs] holding the fields of [rhs],
    and changes no other object, [rhs] included; afterwards [lhs == rhs]
    evaluates as [rhs == rhs] does, which is true unless a bound of [rhs]
    is unequal to itself. *)
Theorem Lim_assign_is_default_copy :
  forall (V : Type) (NV : Numeric V) (s : gmap loc (Lim V)) (lhs rhs : loc)
         (l r : Lim V),
    s !! lhs = Some l ->
    s !! rhs = Some r ->
    assign_stmt lhs rhs s = default_copy_assign lhs rhs s /\
    exists s',
      assign_stmt lhs rhs s = Some (lhs, s') /\
      s' !! lhs = Some r /\
      s' !! rhs = Some r /\
      (forall o, o <> lhs -> s' !! o = s !! o) /\
      (forall l' r', s' !! lhs = Some l' -> s' !! rhs = Some r' ->
         op_eq l' r' = op_eq r r) /\
      (veq (min r) (min r) = true -> veq (max r) (max r) = true ->
       forall l' r', s' !! lhs = Some l' -> s' !! rhs = Some r' ->
         op_eq l' r' = true).
Proof.
  intros V NV s lhs rhs l r El Er.
  split; [apply assign_stmt_is_default_copy |].
  exists (<[lhs := r]> s).
  assert (Elhs : <[lhs := r]> s !! lhs = Some r) by apply lookup_insert_eq.
  assert (Erhs : <[lhs := r]> s !! rhs = Some r).
  { destruct (decide (lhs = rhs)) as [-> | Hne].
    - apply lookup_insert_eq.
    - now rewrite lookup_insert_ne. }
  split; [| split; [| split; [| split; [| split]]]].
  - unfold assign_stmt. rewrite Er. now apply op_assign_run with (l := l).
  - exact Elhs.
  - exact Erhs.
  - intros o Ho. now rewrite lookup_insert_ne.
  - intros l' r' Hl Hr. congruence.
  - intros Hmin Hmax l' r' Hl Hr.
    assert (l' = r) by congruence. assert (r' = r) by congruence. subst.
    unfold op_eq. now rewrite Hmin, Hmax.
Qed.

(** An instance: assigning [Lim<float>(3,4)] to another object. *)
Lemma Lim_assign_3_4 :
  let s : gmap loc (Lim F32.float) :=
    <[2%positive := mkLim (F32.of_Z 3) (F32.of_Z 4)]>
      {[ 1%positive := mkLim (F32.of_Z 1) (F32.of_Z 2) ]} in
  (s !! 1%positive = Some (mkLim (F32.of_Z 1) (F32.of_Z 2)) /\
   s !! 2%positive = Some (mkLim (F32.of_Z 3) (F32.of_Z 4))) /\
  exists s',
    assign_stmt 1%positive 2%positive s = Some (1%positive, s') /\
    s' !! 1%positive = Some (mkLim (F32.of_Z 3) (F32.of_Z 4)) /\
    s' !! 2%positive = Some (mkLim (F32.of_Z 3) (F32.of_Z 4)).
Proof.
  intros s.
  assert (E1 : s !! 1%positive = Some (mkLim (F32.of_Z 1) (F32.of_Z 2)))
    by (vm_compute; reflexivity).
  assert (E2 : s !! 2%positive = Some (mkLim (F32.of_Z 3) (F32.of_Z 4)))
    by (vm_compute; reflexivity).
  split; [auto |].
  destruct (Lim_assign_is_default_copy F32.float float_Numeric s 1%positive 2%positive
              _ _ E1 E2) as [_ [s' (Hrun & Hl & Hr & _)]].
  exists s'. auto.
Defined.

(** ** Binary32 facts the marker geometry needs *)

Lemma binary_round_aux_opp (s : bool) (m e : Z) (l : location) :
  SFopp (binary_round_aux F32.prec F32.emax s m e l)
  = binary_round_aux F32.prec F32.emax (negb s) m e l.
Proof.
  unfold binary_round_aux.
  destruct (shr_fexp F32.prec F32.emax m e l) as [mrs' e'].
  destruct (shr_fexp F32.prec F32.emax _ e' loc_Exact) as [mrs'' e''].
  destruct (shr_m mrs'') as [| p | p]; try reflexivity.
  destruct (e'' <=? F32.emax - F32.prec); reflexivity.
Qed.

(** Negating the dividend negates the quotient. *)
Lemma div_opp_l (x y : F32.float) :
  F32.div (F32.opp x) y = F32.opp (F32.div x y).
Proof.
  unfold F32.div, F32.opp.
  destruct x as [sx | sx | | sx mx ex], y as [sy | sy | | sy my ey];
    try reflexivity; try (destruct sx, sy; reflexivity).
  unfold SFopp at 1. unfold SFdiv.
  destruct (SFdiv_core_binary F32.prec F32.emax (Z.pos mx) ex (Z.pos my) ey)
    as [[mz ez] lz].
  rewrite binary_round_aux_opp. now destruct sx, sy.
Qed.

Lemma negHalfOf_opp (size : F32.float) : negHalfOf size = F32.opp (halfOf size).
Proof. apply div_opp_l. Qed.

(** A value above zero is above its own negation. *)
Lemma opp_ltb_of_pos (v : F32.float) :
  F32.ltb (F32.of_Z 0) v = true -> F32.ltb (F32.opp v) v = true.
Proof.
  destruct v as [s | s | | s m e]; try discriminate; destruct s; try discriminate;
    reflexivity.
Qed.

(** And only such a value is. *)
Lemma pos_of_opp_ltb (v : F32.float) :
  F32.ltb (F32.opp v) v = true -> F32.ltb (F32.of_Z 0) v = true.
Proof.
  destruct v as [s | s | | s m e]; try discriminate; destruct s; try discriminate;
    try reflexivity.
  all: cbn; unfold F32.ltb, SFltb, SFcompare;
    rewrite ?Z.compare_refl, ?Pos.compare_cont_refl; discriminate.
Qed.

Lemma opp_involutive (x : F32.float) : F32.opp (F32.opp x) = x.
Proof. destruct x as [s | s | | s m e]; cbn; now rewrite ?negb_involutive. Qed.

(** *** Exact halves *)

Lemma div_eucl_pair a b : Z.div_eucl a b = (a / b, a mod b).
Proof. unfold Z.div, Z.modulo. now destruct (Z.div_eucl a b). Qed.

(** Rounding a canonical significand leaves it, and rounding twice a
    canonical significand one exponent lower gives it back. *)
Lemma binary_round_aux_canonical s m e :
  bounded F32.prec F32.emax m e = true ->
  binary_round_aux F32.prec F32.emax s (Zpos m) e loc_Exact = S754_finite s m e.
Proof.
  intros Hb. unfold bounded, canonical_mantissa in Hb.
  apply andb_true_iff in Hb as [Hc He]. apply Z.eqb_eq in Hc.
  unfold binary_round_aux, shr_fexp. cbn [Zdigits2 shr_record_of_loc].
  rewrite Hc, Z.sub_diag. cbn [shr shr_m loc_of_shr_record round_nearest_even Zdigits2].
  rewrite Hc, Z.sub_diag. cbn [shr shr_m]. now rewrite He.
Qed.

Lemma binary_round_aux_twice s m e :
  bounded F32.prec F32.emax m e = true ->
  fexp F32.prec F32.emax (Zpos (digits2_pos m) + 1 + (e - 1)) = e ->
  binary_round_aux F32.prec F32.emax s (Zpos m~0) (e - 1) loc_Exact = S754_finite s m e.
Proof.
  intros Hb Hf. pose proof Hb as Hb'. unfold bounded, canonical_mantissa in Hb.
  apply andb_true_iff in Hb as [Hc He]. apply Z.eqb_eq in Hc.
  unfold binary_round_aux, shr_fexp. cbn [Zdigits2 shr_record_of_loc digits2_pos].
  rewrite Pos2Z.inj_succ. unfold Z.succ. rewrite Hf.
  replace (e - (e - 1)) with 1 by lia.
  cbn [shr SpecFloat.iter_pos shr_1 shr_m loc_of_shr_record round_nearest_even Zdigits2 orb].
  replace (e - 1 + 1) with e by lia.
  rewrite Hc, Z.sub_diag. cbn [shr shr_m]. now rewrite He.
Qed.

Lemma digits_normal m e :
  bounded F32.prec F32.emax m e = true -> -149 < e -> Zpos (digits2_pos m) = 24.
Proof.
  intros Hb He. unfold bounded, canonical_mantissa in Hb.
  apply andb_true_iff in Hb as [Hc _]. apply Z.eqb_eq in Hc.
  unfold fexp, emin, F32.prec, F32.emax in Hc. lia.
Qed.

Lemma digits_bounded m e :
  bounded F32.prec F32.emax m e = true -> Zpos (digits2_pos m) <= 24.
Proof.
  intros Hb. unfold bounded, canonical_mantissa in Hb.
  apply andb_true_iff in Hb as [Hc _]. apply Z.eqb_eq in Hc.
  unfold fexp, emin, F32.prec, F32.emax in Hc. lia.
Qed.

Lemma bounded_intro m e :
  fexp F32.prec F32.emax (Zpos (digits2_pos m) + e) = e -> e <= 104 ->
  bounded F32.prec F32.emax m e = true.
Proof.
  intros Hc He. unfold bounded, canonical_mantissa.
  apply andb_true_iff. split; [now apply Z.eqb_eq | apply Z.leb_le; unfold F32.emax, F32.prec; lia].
Qed.

Lemma bounded_exp m e : bounded F32.prec F32.emax m e = true -> -149 <= e <= 104.
Proof.
  intros Hb. unfold bounded, canonical_mantissa in Hb.
  apply andb_true_iff in Hb as [Hc He]. apply Z.eqb_eq in Hc. apply Z.leb_le in He.
  unfold fexp, emin, F32.prec, F32.emax in *. lia.
Qed.

(** Halving a value whose exponent is above the least one lowers the
    exponent; halving an even significand at the least exponent halves
    the significand. Both are exact. *)
Lemma div_two_normal s m e :
  bounded F32.prec F32.emax m e = true -> -149 < e ->
  SFdiv F32.prec F32.emax (S754_finite s m e) (S754_finite false 8388608 (-22)) = S754_finite s m (e - 1).
Proof.
  intros Hb He. pose proof (digits_normal m e Hb He) as Hd.
  pose proof (bounded_exp m e Hb) as Hexp.
  assert (Hb1 : bounded F32.prec F32.emax m (e - 1) = true).
  { apply bounded_intro; [| lia]. rewrite Hd. unfold fexp, emin, F32.prec, F32.emax. lia. }
  unfold SFdiv, SFdiv_core_binary.
  cbn [Zdigits2]. rewrite Hd. change (Zpos (digits2_pos 8388608)) with 24.
  rewrite xorb_false_r.
  destruct (Z.eq_dec e (-148)) as [-> | Hne].
  - change (Z.min (fexp F32.prec F32.emax (24 + -148 - (24 + -22))) (-148 - -22)) with (-149).
    change (-148 - -22 - -149) with 23.
    cbv beta iota zeta.
    rewrite Z.shiftl_mul_pow2 by lia.
    rewrite div_eucl_pair.
    replace (Zpos m * 2 ^ 23) with (Zpos m * 8388608) by reflexivity.
    rewrite Z.div_mul, Z.mod_mul by lia.
    change (new_location 8388608 0) with loc_Exact.
    exact (binary_round_aux_canonical s m (-149) Hb1).
  - assert (Hmin : Z.min (fexp F32.prec F32.emax (24 + e - (24 + -22))) (e - -22) = e - 2).
    { unfold fexp, emin, F32.prec, F32.emax. lia. }
    rewrite Hmin. replace (e - -22 - (e - 2)) with 24 by lia.
    cbv beta iota zeta.
    rewrite Z.shiftl_mul_pow2 by lia.
    rewrite div_eucl_pair.
    replace (Zpos m * 2 ^ 24) with (Zpos m~0 * 8388608) by (change (2 ^ 24) with 16777216; lia).
    rewrite Z.div_mul, Z.mod_mul by lia.
    change (new_location 8388608 0) with loc_Exact.
    replace (e - 2) with (e - 1 - 1) by lia.
    apply binary_round_aux_twice; [exact Hb1 |].
    rewrite Hd. unfold fexp, emin, F32.prec, F32.emax. lia.
Qed.

Lemma div_two_even s k :
  bounded F32.prec F32.emax k~0 (-149) = true ->
  SFdiv F32.prec F32.emax (S754_finite s k~0 (-149)) (S754_finite false 8388608 (-22)) = S754_finite s k (-149).
Proof.
  intros Hb. pose proof (digits_bounded _ _ Hb) as Hd. cbn [digits2_pos] in Hd.
  rewrite Pos2Z.inj_succ in Hd.
  assert (Hb1 : bounded F32.prec F32.emax k (-149) = true).
  { apply bounded_intro; [| lia]. unfold fexp, emin, F32.prec, F32.emax. lia. }
  unfold SFdiv, SFdiv_core_binary.
  change (Zdigits2 8388608) with 24.
  cbn [Zdigits2 digits2_pos]. rewrite Pos2Z.inj_succ.
  rewrite xorb_false_r.
  assert (Hmin : Z.min (fexp F32.prec F32.emax (Z.succ (Zpos (digits2_pos k)) + -149 - (24 + -22)))
                   (-149 - -22) = -149).
  { unfold fexp, emin, F32.prec, F32.emax. lia. }
  rewrite Hmin. change (-149 - -22 - -149) with 22.
  cbv beta iota zeta.
  rewrite Z.shiftl_mul_pow2 by lia.
  rewrite div_eucl_pair.
  replace (Zpos k~0 * 2 ^ 22) with (Zpos k * 8388608) by (change (2 ^ 22) with 4194304; lia).
  rewrite Z.div_mul, Z.mod_mul by lia.
  change (new_location 8388608 0) with loc_Exact.
  exact (binary_round_aux_canonical s k (-149) Hb1).
Qed.

(** Normalising a sum that is canonical, or twice a canonical one. *)
Lemma binary_normalize_canonical m e :
  bounded F32.prec F32.emax m e = true ->
  binary_normalize F32.prec F32.emax (Zpos m) e false = S754_finite false m e.
Proof.
  intros Hb. pose proof Hb as Hb'. unfold bounded, canonical_mantissa in Hb.
  apply andb_true_iff in Hb as [Hc He]. apply Z.eqb_eq in Hc.
  unfold binary_normalize, binary_round, shl_align. rewrite Hc, Z.sub_diag.
  now apply binary_round_aux_canonical.
Qed.

Lemma binary_normalize_twice m e :
  bounded F32.prec F32.emax m e = true ->
  fexp F32.prec F32.emax (Zpos (digits2_pos m) + 1 + (e - 1)) = e ->
  binary_normalize F32.prec F32.emax (Zpos m~0) (e - 1) false = S754_finite false m e.
Proof.
  intros Hb Hf.
  unfold binary_normalize, binary_round, shl_align. cbn [digits2_pos].
  rewrite Pos2Z.inj_succ. unfold Z.succ. rewrite Hf.
  replace (e - (e - 1)) with 1 by lia. cbv beta iota.
  now apply binary_round_aux_twice.
Qed.

Lemma shl_align_same m e : shl_align m e e = (m, e).
Proof. unfold shl_align. now rewrite Z.sub_diag. Qed.

Lemma shl_align_one m e : shl_align m e (e - 1) = (xO m, e - 1).
Proof. unfold shl_align. replace (e - 1 - e) with (-1) by lia. reflexivity. Qed.

(** Sums and differences of a value and its halves are exact. *)
Section NormalHalves.
Variables (m : positive) (e : Z).
Hypothesis Hb : bounded F32.prec F32.emax m e = true.

Hypothesis He : -149 < e.

Lemma half_bounded_normal : bounded F32.prec F32.emax m (e - 1) = true.
Proof.
  pose proof (digits_normal m e Hb He) as Hd. pose proof (bounded_exp m e Hb).
  apply bounded_intro; [| lia]. rewrite Hd. unfold fexp, emin, F32.prec, F32.emax. lia.
Qed.

Lemma fexp_twice_normal : fexp F32.prec F32.emax (Zpos (digits2_pos m) + 1 + (e - 1)) = e.
Proof.
  rewrite (digits_normal m e Hb He). unfold fexp, emin, F32.prec, F32.emax. lia.
Qed.

Lemma add_neghalf_size_normal :
  SFadd F32.prec F32.emax (S754_finite true m (e - 1)) (S754_finite false m e)
  = S754_finite false m (e - 1).
Proof.
  unfold SFadd. replace (Z.min (e - 1) e) with (e - 1) by lia.
  rewrite shl_align_same, shl_align_one. cbn [fst cond_Zopp].
  replace (- Zpos m + Zpos m~0) with (Zpos m) by lia.
  apply binary_normalize_canonical, half_bounded_normal.
Qed.

Lemma add_half_half_normal :
  SFadd F32.prec F32.emax (S754_finite false m (e - 1)) (S754_finite false m (e - 1))
  = S754_finite false m e.
Proof.
  unfold SFadd. rewrite Z.min_id, shl_align_same. cbn [fst cond_Zopp].
  replace (Zpos m + Zpos m) with (Zpos m~0) by lia.
  apply binary_normalize_twice; [exact Hb | apply fexp_twice_normal].
Qed.

Lemma sub_half_neghalf_normal :
  SFsub F32.prec F32.emax (S754_finite false m (e - 1)) (S754_finite true m (e - 1))
  = S754_finite false m e.
Proof.
  unfold SFsub. rewrite Z.min_id, shl_align_same. cbn [fst cond_Zopp].
  replace (Zpos m - - Zpos m) with (Zpos m~0) by lia.
  apply binary_normalize_twice; [exact Hb | apply fexp_twice_normal].
Qed.

End NormalHalves.

Section EvenHalves.
Variable k : positive.
Hypothesis Hb : bounded F32.prec F32.emax k~0 (-149) = true.

Lemma half_bounded_even : bounded F32.prec F32.emax k (-149) = true.
Proof.
  pose proof (digits_bounded _ _ Hb) as Hd. cbn [digits2_pos] in Hd.
  rewrite Pos2Z.inj_succ in Hd.
  apply bounded_intro; [| lia]. unfold fexp, emin, F32.prec, F32.emax. lia.
Qed.

Lemma add_neghalf_size_even :
  SFadd F32.prec F32.emax (S754_finite true k (-149)) (S754_finite false k~0 (-149))
  = S754_finite false k (-149).
Proof.
  unfold SFadd. rewrite Z.min_id, !shl_align_same. cbn [fst cond_Zopp].
  replace (- Zpos k + Zpos k~0) with (Zpos k) by lia.
  apply binary_normalize_canonical, half_bounded_even.
Qed.

Lemma add_half_half_even :
  SFadd F32.prec F32.emax (S754_finite false k (-149)) (S754_finite false k (-149))
  = S754_finite false k~0 (-149).
Proof.
  unfold SFadd. rewrite Z.min_id, shl_align_same. cbn [fst cond_Zopp].
  replace (Zpos k + Zpos k) with (Zpos k~0) by lia.
  now apply binary_normalize_canonical.
Qed.

Lemma sub_half_neghalf_even :
  SFsub F32.prec F32.emax (S754_finite false k (-149)) (S754_finite true k (-149))
  = S754_finite false k~0 (-149).
Proof.
  unfold SFsub. rewrite Z.min_id, shl_align_same. cbn [fst cond_Zopp].
  replace (Zpos k - - Zpos k) with (Zpos k~0) by lia.
  now apply binary_normalize_canonical.
Qed.
End EvenHalves.

(** What an exact half gives: it is above zero, and the size is the sum
    of its two halves in every way the shapes need it. *)
Lemma exactHalf_facts (size : F32.float) :
  exactHalf size = true ->
  F32.ltb (F32.of_Z 0) (halfOf size) = true /\
  F32.add (negHalfOf size) size = halfOf size /\
  F32.add (halfOf size) (halfOf size) = size /\
  F32.sub (halfOf size) (negHalfOf size) = size.
Proof.
  destruct size as [s | s | | s m e]; try discriminate.
  destruct s; [discriminate |]. cbn [exactHalf].
  intros Hx. apply andb_true_iff in Hx as [Hb Hcase].
  rewrite negHalfOf_opp. unfold halfOf, F32.div, F32.add, F32.sub.
  change (F32.of_Z 2) with (S754_finite false 8388608 (-22)).
  destruct (Z.ltb_spec (-149) e) as [He | He].
  - rewrite (div_two_normal false m e Hb He). cbn [F32.opp SFopp negb].
    split; [reflexivity |].
    split; [now apply add_neghalf_size_normal |].
    split; [now apply add_half_half_normal | now apply sub_half_neghalf_normal].
  - cbn [orb] in Hcase. destruct m as [m | k |]; try discriminate.
    pose proof (bounded_exp _ _ Hb) as Hexp.
    assert (e = -149) as -> by lia.
    rewrite (div_two_even false k Hb). cbn [F32.opp SFopp negb].
    split; [reflexivity |].
    split; [now apply add_neghalf_size_even |].
    split; [now apply add_half_half_even | now apply sub_half_neghalf_even].
Qed.

(** The sizes with an exact half: [2^-125] and the largest finite value
    are among them, and so is twice the least subnormal; three times the
    least subnormal, zero, infinity and the negative sizes are not. *)
Example exactHalf_samples :
  exactHalf (S754_finite false 8388608 (-148)) = true /\
  exactHalf (S754_finite false 16777215 104) = true /\
  exactHalf (S754_finite false 2 (-149)) = true /\
  exactHalf (S754_finite false 3 (-149)) = false /\
  exactHalf (F32.of_Z 0) = false /\
  exactHalf (S754_infinity false) = false /\
  exactHalf (F32.of_Z (-2)) = false.
Proof. repeat split. Qed.

(** Halving the least subnormal rounds to zero. *)
Example halfOf_least_subnormal :
  halfOf (S754_finite false 1 (-149)) = S754_zero false.
Proof. reflexivity. Qed.

(** [pi] is a canonical binary32 value. *)
Example pi_valid : F32.valid pi = true.
Proof. reflexivity. Qed.

(** The angles of the three rotated variants, as binary32 values:
    1.5707963705..., 3.1415927410... and 4.7123889923... *)
Lemma rotation_angles :
  deg90 = S754_finite false 13176795 (-23) /\
  deg180 = S754_finite false 13176795 (-22) /\
  deg270 = S754_finite false 9882596 (-21).
Proof. repeat split. Qed.

(** ** [Marker::getMarkerPathFrom] *)

Section MarkerFacts.
Context {JUCE : PathToolkit}.

Lemma getMarkerPathFrom_only_type (m : Marker) (length : F32.float) :
  getMarkerPathFrom m length = getMarkerPathFrom (Marker_of_type (type m)) length.
Proof. reflexivity. Qed.

Lemma getMarkerPathFrom_UpTriangle (length : F32.float) :
  getMarkerPathFrom (Marker_of_type UpTriangle) length
  = addUpTriangleTo length Path_new.
Proof. reflexivity. Qed.

Lemma centredBox_of_exactHalf (size : F32.float) :
  exactHalf size = true ->
  isCentredBox size (mkRectangle (negHalfOf size) (negHalfOf size) size size).
Proof.
  intros Hx. destruct (exactHalf_facts size Hx) as (_ & Hedge & _ & _).
  unfold isCentredBox. cbn [rx ry rw rh].
  rewrite Hedge, negHalfOf_opp, opp_involutive. repeat split.
Qed.

Lemma upTriangle_of_exactHalf (size : F32.float) :
  exactHalf size = true ->
  let '(apex, b1, b2) := upTriangleVertices size in
  isApexUpIsoceles size apex b1 b2.
Proof.
  intros Hx. destruct (exactHalf_facts size Hx) as (Hpos & _ & _ & Hspan).
  unfold upTriangleVertices, isApexUpIsoceles. cbn [px py].
  change (F32.div (F32.opp size) (F32.of_Z 2)) with (negHalfOf size).
  change (F32.div size (F32.of_Z 2)) with (halfOf size).
  split; [reflexivity |]. split; [reflexivity |].
  split; [apply negHalfOf_opp |]. split; [apply negHalfOf_opp |].
  split; [rewrite negHalfOf_opp; now apply opp_ltb_of_pos |].
  split; exact Hspan.
Qed.

(** The shapes are as designed only where the half of the size is above
    zero. *)
Lemma shapesAsDesigned_positive_half (size : F32.float) :
  shapesAsDesigned size -> F32.ltb (F32.of_Z 0) (halfOf size) = true.
Proof.
  intros (_ & _ & _ & Hup).
  destruct (upTriangleVertices size) as [[apex b1] b2] eqn:E.
  unfold upTriangleVertices in E. injection E as <- <- <-.
  destruct Hup as [_ (_ & _ & _ & _ & Hlt & _)]. cbn [py] in Hlt.
  apply pos_of_opp_ltb. now rewrite <- negHalfOf_opp.
Qed.

End MarkerFacts.

(** In the recording toolkit every recognized type leaves at least one
    call on the path. *)
Lemma recognized_type_records_a_call (t : MarkerType) (length : F32.float) :
  recognized t = true ->
  getMarkerPathFrom (JUCE := recording) (Marker_of_type t) length <> [].
Proof.
  intros Hrec. unfold getMarkerPathFrom. cbn [type Marker_of_type].
  destruct t as [| p | p]; [discriminate | | discriminate].
  destruct p as [[[p | p |] | [p | p |] |] | [[p | p |] | [p | p |] |] |];
    solve [discriminate].
Qed.

Example recorded_RightTriangle :
  getMarkerPathFrom (JUCE := recording) (Marker_of_type RightTriangle) (F32.of_Z 2)
  = [CallTriangle (mkPoint (F32.of_Z 0) (F32.of_Z (-1)))
                  (mkPoint (F32.of_Z (-1)) (F32.of_Z 1))
                  (mkPoint (F32.of_Z 1) (F32.of_Z 1));
     CallTransform deg90 (F32.of_Z 0) (F32.of_Z 0)].
Proof. reflexivity. Qed.

(** C3. For every length, the paths of [RightTriangle], [DownTriangle]
    and [LeftTriangle] are the [UpTriangle] path of the same length turned
    about the origin by a quarter, a half and three quarters of a turn. *)
Theorem rotated_triangles_are_rotated_UpTriangle :
  forall (JUCE : PathToolkit) (length : F32.float),
    let up := getMarkerPathFrom (Marker_of_type UpTriangle) length in
    getMarkerPathFrom (Marker_of_type RightTriangle) length
      = rotatedAboutOrigin deg90 up /\
    getMarkerPathFrom (Marker_of_type DownTriangle) length
      = rotatedAboutOrigin deg180 up /\
    getMarkerPathFrom (Marker_of_type LeftTriangle) length
      = rotatedAboutOrigin deg270 up.
Proof.
  intros JUCE length up. subst up.
  rewrite getMarkerPathFrom_UpTriangle.
  repeat split.
Qed.

(** C6, as stated, fails at a negative size: for [size = -2] the first
    vertex of the [UpTriangle] is [(0, 1)] and the other two lie at
    [y = -1], so the apex is below the base. *)
Lemma shapes_not_as_designed_at_minus_2 :
  upTriangleVertices (F32.of_Z (-2))
    = (mkPoint (F32.of_Z 0) (F32.of_Z 1),
       mkPoint (F32.of_Z 1) (F32.of_Z (-1)),
       mkPoint (F32.of_Z (-1)) (F32.of_Z (-1))) /\
  F32.ltb (F32.of_Z (-1)) (F32.of_Z 1) = true /\
  ~ shapesAsDesigned (JUCE := recording) (F32.of_Z (-2)).
Proof.
  split; [reflexivity |]. split; [reflexivity |].
  intros (_ & _ & _ & Hup).
  assert (E : upTriangleVertices (F32.of_Z (-2))
              = (mkPoint (F32.of_Z 0) (F32.of_Z 1),
                 mkPoint (F32.of_Z 1) (F32.of_Z (-1)),
                 mkPoint (F32.of_Z (-1)) (F32.of_Z (-1)))) by reflexivity.
  rewrite E in Hup. destruct Hup as [_ (_ & _ & _ & _ & Hlt & _)].
  discriminate Hlt.
Qed.

(** Nor do they hold where the half is not exact or not finite: at three
    times the least subnormal the half rounds up, so the box reaches
    from [-2 * 2^-149] to [2^-149] only; at infinity its far edge is
    NaN. *)
Lemma shapes_not_as_designed_at_3_ulp :
  F32.add (negHalfOf (S754_finite false 3 (-149))) (S754_finite false 3 (-149))
    = S754_finite false 1 (-149) /\
  ~ shapesAsDesigned (JUCE := recording) (S754_finite false 3 (-149)).
Proof.
  split; [reflexivity |].
  intros (_ & _ & [_ (_ & _ & Hedge & _)] & _). discriminate Hedge.
Qed.

Lemma shapes_not_as_designed_at_infinity :
  ~ shapesAsDesigned (JUCE := recording) (S754_infinity false).
Proof. intros (_ & _ & [_ (_ & _ & Hedge & _)] & _). discriminate Hedge. Qed.

(** C6, amended. For every positive finite size whose half is exact in
    binary32, each basic shape is built centred at the origin with
    bounding dimension [size]: the circle as the ellipse of the [size]
    by [size] box centred at the origin, the pentagram as the 5-pointed
    star about [(0,0)] with inner radius [size/4] and outer radius
    [size/2], the square as that same box, and the up triangle as an
    isoceles triangle with its apex at the top and its base at the
    bottom, [size] wide and [size] high. *)
Theorem basic_shapes_as_designed :
  forall (JUCE : PathToolkit) (size : F32.float),
    exactHalf size = true ->
    shapesAsDesigned size.
Proof.
  intros JUCE size Hx. unfold shapesAsDesigned. cbv zeta.
  pose proof (centredBox_of_exactHalf size Hx) as Hbox.
  destruct (exactHalf_facts size Hx) as (_ & _ & Hdiam & _).
  split; [split; [reflexivity | exact Hbox] |].
  split; [split; [reflexivity | repeat split; exact Hdiam] |].
  split; [split; [reflexivity | exact Hbox] |].
  pose proof (upTriangle_of_exactHalf size Hx) as Hup.
  destruct (upTriangleVertices size) as [[apex b1] b2] eqn:E.
  split; [| exact Hup].
  rewrite getMarkerPathFrom_UpTriangle. unfold addUpTriangleTo. now rewrite E.
Qed.

(** The shapes for [size = 10]. *)
Lemma basic_shapes_at_10 :
  exactHalf (F32.of_Z 10) = true /\
  shapesAsDesigned (JUCE := recording) (F32.of_Z 10).
Proof.
  split; [reflexivity |].
  apply (basic_shapes_as_designed recording (F32.of_Z 10)). reflexivity.
Defined.

(** C7. For a type value outside the seven enumerators the builder
    returns the path it started from, the empty [juce::Path], whatever
    the length; it has a result for every input. *)
Theorem unrecognized_type_gives_empty_path :
  forall (JUCE : PathToolkit) (marker : Marker) (length : F32.float),
    recognized (type marker) = false ->
    getMarkerPathFrom marker length = Path_new.
Proof.
  intros JUCE marker length Hrec. unfold getMarkerPathFrom.
  destruct (type marker) as [| p | p]; [discriminate | | reflexivity].
  destruct p as [[[p | p |] | [p | p |] |] | [[p | p |] | [p | p |] |] |];
    solve [reflexivity | discriminate].
Qed.

(** The type value [7], one past [LeftTriangle]. *)
Lemma unrecognized_type_7 :
  recognized 7 = false /\
  getMarkerPathFrom (JUCE := recording) (Marker_of_type 7) (F32.of_Z 10) = [].
Proof.
  split; [reflexivity |].
  apply (unrecognized_type_gives_empty_path recording (Marker_of_type 7) (F32.of_Z 10)).
  reflexivity.
Defined.

(** C8. The path is a function of the marker's type and of the length
    alone: two markers of one type give equal paths whatever their
    colours and stroke. The builder takes no state and returns none. *)
Theorem getMarkerPathFrom_depends_on_type_and_length :
  forall (JUCE : PathToolkit) (m1 m2 : Marker) (length : F32.float),
    type m1 = type m2 ->
    getMarkerPathFrom m1 length = getMarkerPathFrom m2 length.
Proof.
  intros JUCE m1 m2 length Ht.
  rewrite (getMarkerPathFrom_only_type m1), (getMarkerPathFrom_only_type m2).
  now rewrite Ht.
Qed.

(** A red-edged, thick-stroked square and the plain one. *)
Lemma coloured_and_plain_square :
  let m1 : Marker :=
    @mkMarker recording Square (Some 4294901760) None
      (mkPathStrokeType (F32.of_Z 3) curved butt) in
  let m2 : Marker := @Marker_of_type recording Square in
  type m1 = type m2 /\
  getMarkerPathFrom m1 (F32.of_Z 10) = getMarkerPathFrom m2 (F32.of_Z 10).
Proof.
  intros m1 m2. split; [reflexivity |].
  apply (getMarkerPathFrom_depends_on_type_and_length recording m1 m2 (F32.of_Z 10)).
  reflexivity.
Defined.

(** ** [iota_delta] *)

Section IotaDeltaFacts.
Context {V : Type} `{Additive V}.
Implicit Types (buf : list V) (dx : V) (g : V -> V).

Lemma nthValue_shift i (x0 : V) dx :
  nthValue (S i) x0 dx = nthValue i (vadd x0 dx) dx.
Proof. induction i as [| i IH]; [reflexivity |]. cbn [nthValue] in *. now rewrite IH. Qed.

(** The plain loop is the loop of the second overload run with the
    identity as [f]. *)
Lemma iota_delta_as_f fuel first last (x0 : V) dx buf :
  iota_delta fuel first last x0 dx buf
  = iota_delta_f fuel first last x0 dx (Some (fun x => x)) buf.
Proof.
  revert first x0 buf. induction fuel as [| fuel IH]; intros first x0 buf.
  - reflexivity.
  - cbn [iota_delta iota_delta_f]. repeat case_decide; auto.
Qed.

(** The loop over the [n] positions from [first], with fuel to spare. *)
Lemma iota_delta_f_run g n :
  forall fuel first (x0 : V) dx buf,
    (first + n <= length buf)%nat ->
    (n < fuel)%nat ->
    exists buf',
      iota_delta_f fuel first (first + n) x0 dx (Some g) buf = Returned buf' /\
      length buf' = length buf /\
      (forall i, (i < n)%nat -> buf' !! (first + i)%nat = Some (g (nthValue i x0 dx))) /\
      (forall j, (j < first \/ first + n <= j)%nat -> buf' !! j = buf !! j).
Proof.
  induction n as [| n IH]; intros fuel first x0 dx buf Hlen Hfuel;
    destruct fuel as [| fuel]; try lia; cbn [iota_delta_f].
  - exists buf. rewrite Nat.add_0_r. case_decide; [congruence |].
    split; [reflexivity |]. split; [reflexivity |].
    split; [intros i Hi; lia | reflexivity].
  - case_decide; [| lia]. case_decide; [| lia].
    destruct (IH fuel (S first) (vadd x0 dx) dx (<[first := g x0]> buf))
      as (buf' & Hrun & Hl & Hin & Hout).
    { rewrite length_insert. lia. }
    { lia. }
    exists buf'. replace (first + S n)%nat with (S first + n)%nat by lia.
    split; [exact Hrun |]. rewrite length_insert in Hl.
    split; [exact Hl |]. split.
    + intros [| i] Hi.
      * rewrite Nat.add_0_r, Hout by lia.
        apply list_lookup_insert_eq. lia.
      * replace (first + S i)%nat with (S first + i)%nat by lia.
        rewrite nthValue_shift. apply Hin. lia.
    + intros j Hj. rewrite Hout by lia.
      apply list_lookup_insert_ne. lia.
Qed.

(** An empty [std::function] is never called on an empty range, and
    throws at the first element of any other. *)
Lemma iota_delta_f_empty_function fuel first last (x0 : V) dx buf :
  iota_delta_f (S fuel) first last x0 dx None buf
  = if decide (first = last) then Returned buf else Threw_bad_function_call.
Proof. cbn [iota_delta_f]. repeat case_decide; congruence. Qed.

(** A write through a position past the end is undefined. *)
Lemma iota_delta_past_the_end fuel first last (x0 : V) dx buf :
  first <> last -> (length buf <= first)%nat ->
  iota_delta (S fuel) first last x0 dx buf = Undefined.
Proof. intros Hne Hge. cbn [iota_delta]. repeat case_decide; try lia; congruence. Qed.

End IotaDeltaFacts.

(** Under exact arithmetic the [i]-th value is [x0 + i * dx]; for
    [uint32_t] that sum is taken modulo [2^32]. *)
Lemma nthValue_uint32 (i : nat) (x0 dx : N) :
  (x0 < 2 ^ 32)%N ->
  nthValue i x0 dx = ((x0 + N.of_nat i * dx) mod 2 ^ 32)%N.
Proof.
  intros Hx. induction i as [| i IH].
  - cbn [nthValue]. rewrite N.mul_0_l, N.add_0_r. symmetry. now apply N.mod_small.
  - cbn [nthValue]. rewrite IH. cbn [vadd uint32_Additive].
    rewrite N.Div0.add_mod_idemp_l. f_equal. lia.
Qed.

(** C10. On a range of [n = last - first] positions of a sequence, both
    overloads return once the loop has run [n] times; afterwards position
    [first + i] holds [x0] with [dx] added [i] times (the second overload:
    [f] of that value) for every [i < n], every position outside the
    range holds what it held, and the sequence has kept its length. *)
Theorem iota_delta_fills_range :
  forall (V : Type) (AV : Additive V) (buf : list V) (first last : nat)
         (x0 dx : V) (fuel : nat),
    (first <= last)%nat ->
    (last <= length buf)%nat ->
    (last - first < fuel)%nat ->
    (exists buf',
        iota_delta fuel first last x0 dx buf = Returned buf' /\
        length buf' = length buf /\
        (forall i, (i < last - first)%nat ->
           buf' !! (first + i)%nat = Some (nthValue i x0 dx)) /\
        (forall j, (j < first \/ last <= j)%nat -> buf' !! j = buf !! j)) /\
    (forall f : V -> V,
      exists buf',
        iota_delta_f fuel first last x0 dx (Some f) buf = Returned buf' /\
        length buf' = length buf /\
        (forall i, (i < last - first)%nat ->
           buf' !! (first + i)%nat = Some (f (nthValue i x0 dx))) /\
        (forall j, (j < first \/ last <= j)%nat -> buf' !! j = buf !! j)).
Proof.
  intros V AV buf first last x0 dx fuel Hle Hlen Hfuel.
  assert (Hlast : last = (first + (last - first))%nat) by lia.
  assert (Hgen : forall g : V -> V,
    exists buf',
      iota_delta_f fuel first last x0 dx (Some g) buf = Returned buf' /\
      length buf' = length buf /\
      (forall i, (i < last - first)%nat ->
         buf' !! (first + i)%nat = Some (g (nthValue i x0 dx))) /\
      (forall j, (j < first \/ last <= j)%nat -> buf' !! j = buf !! j)).
  { intros g.
    destruct (iota_delta_f_run g (last - first) fuel first x0 dx buf)
      as (buf' & Hrun & Hl & Hin & Hout); [lia | lia |].
    exists buf'. rewrite <- Hlast in Hrun.
    split; [exact Hrun |]. split; [exact Hl |]. split; [exact Hin |].
    intros j Hj. apply Hout. lia. }
  split; [| exact Hgen].
  rewrite iota_delta_as_f. exact (Hgen (fun x => x)).
Qed.

(** Filling the middle three of five [uint32_t] slots from 10 in steps
    of 5, plainly and doubled. *)
Example iota_delta_10_15_20 :
  iota_delta 4 1 4 10%N 5%N [0; 0; 0; 0; 0]%N = Returned [0; 10; 15; 20; 0]%N /\
  iota_delta_f 4 1 4 10%N 5%N (Some (fun x => x * 2)%N) [0; 0; 0; 0; 0]%N
    = Returned [0; 20; 30; 40; 0]%N.
Proof. split; reflexivity. Qed.

Lemma iota_delta_fills_middle_three :
  let buf := [0; 0; 0; 0; 0]%N in
  ((1 <= 4)%nat /\ (4 <= length buf)%nat /\ (4 - 1 < 4)%nat) /\
  exists buf',
    iota_delta 4 1 4 10%N 5%N buf = Returned buf' /\
    length buf' = length buf /\
    (forall i, (i < 4 - 1)%nat -> buf' !! (1 + i)%nat = Some (nthValue i 10%N 5%N)) /\
    (forall j, (j < 1 \/ 4 <= j)%nat -> buf' !! j = buf !! j).
Proof.
  intros buf.
  assert (H1 : (1 <= 4)%nat) by lia.
  assert (H2 : (4 <= length buf)%nat) by (simpl; lia).
  assert (H3 : (4 - 1 < 4)%nat) by (simpl; lia).
  split; [auto |].
  exact (proj1 (iota_delta_fills_range N uint32_Additive buf 1 4 10%N 5%N 4 H1 H2 H3)).
Defined.

(** * Further properties of [Lim] *)

(** ** Binary32 comparison *)

Lemma SFcompare_antisym (x y : F32.float) :
  SFcompare y x = option_map CompOpp (SFcompare x y).
Proof.
  destruct x as [sx | sx | | sx mx ex], y as [sy | sy | | sy my ey];
    try reflexivity; try (destruct sx; reflexivity);
    try (destruct sy; reflexivity); try (destruct sx, sy; reflexivity).
  unfold SFcompare. cbn [option_map]. f_equal.
  rewrite (Z.compare_antisym ex ey).
  pose proof (Pos.compare_cont_antisym mx my Eq) as Hm.
  cbn [CompOpp] in Hm. rewrite <- Hm.
  destruct sx, sy; try reflexivity;
    destruct (ex ?= ey); cbn [CompOpp]; reflexivity.
Qed.

Lemma float_veq_sym (x y : F32.float) : veq x y = veq y x.
Proof.
  cbn [veq float_Numeric]. unfold F32.eqb, SFeqb.
  rewrite (SFcompare_antisym x y).
  destruct (SFcompare x y) as [[| |] |]; reflexivity.
Qed.

Lemma float_veq_self (x : F32.float) : veq x x = true <-> x <> F32.nan.
Proof.
  split.
  - intros E ->. discriminate E.
  - apply float_veq_refl.
Qed.

(** Values that compare equal agree on being zero. *)
Lemma float_veq_zero_congr (x y : F32.float) :
  veq x y = true -> veq x vzero = veq y vzero.
Proof.
  destruct x as [sx | sx | | sx mx ex], y as [sy | sy | | sy my ey];
    try reflexivity; try discriminate;
    try (destruct sx; discriminate); try (destruct sy; discriminate);
    try (destruct sx, sy; (reflexivity || discriminate)).
Qed.

(** A zero divided by anything but a zero or a NaN is a zero. *)
Lemma float_div_zero_l (x val : F32.float) :
  veq x vzero = true -> val <> F32.nan -> veq val vzero = false ->
  veq (F32.div x val) vzero = true.
Proof.
  intros Hx Hnan Hval. apply float_veq_zero in Hx as [sx ->].
  destruct val as [s | s | | s m e]; try reflexivity.
  - discriminate Hval.
  - contradiction.
Qed.

Section LimRelations.
Context {V : Type} `{Numeric V}.

Lemma op_ne_negb (a b : Lim V) : op_ne a b = negb (op_eq a b).
Proof. unfold op_ne, op_eq. now rewrite !vne_veq, negb_andb. Qed.

Lemma op_bool_op_ne (lim : Lim V) : op_bool lim = op_ne lim (mkLim vzero vzero).
Proof. unfold op_bool, op_ne. cbn [min max]. apply orb_comm. Qed.

(** [lim /= val] where a quotient is undefined. *)
Lemma op_div_assign_undefined (s : gmap loc (Lim V)) (this : loc) (lim : Lim V) (val : V) :
  s !! this = Some lim ->
  vdiv (min lim) val = None \/ vdiv (max lim) val = None ->
  op_div_assign this val s = None.
Proof.
  intros E Hnone. unfold op_div_assign, bind, get_min, get_max, lift. rewrite E.
  destruct (vdiv (min lim) val) as [mn |] eqn:Hmn; [| reflexivity].
  destruct Hnone as [Hnone | Hnone]; [discriminate |].
  rewrite (set_min_run s this lim) by exact E.
  rewrite lookup_insert_eq. cbn [max]. now rewrite Hnone.
Qed.

End LimRelations.

(** X1. [a != b] is the negation of [a == b]. *)
Theorem op_ne_is_not_op_eq :
  forall (V : Type) (NV : Numeric V) (a b : Lim V),
    op_ne a b = negb (op_eq a b).
Proof. intros V NV a b. apply op_ne_negb. Qed.

(** X2. The conversion to [bool] is the comparison with the all-zero
    range: [bool(lim)] is [lim != Lim(0,0)], the negation of
    [lim == Lim(0,0)]. *)
Theorem op_bool_is_ne_zero_range :
  forall (V : Type) (NV : Numeric V) (lim : Lim V),
    op_bool lim = op_ne lim (mkLim vzero vzero) /\
    op_bool lim = negb (op_eq lim (mkLim vzero vzero)).
Proof.
  intros V NV lim. split; [apply op_bool_op_ne |].
  rewrite op_bool_op_ne. apply op_ne_negb.
Qed.

(** X3. A range that converts to [false] has a zero bound: [bool(lim)]
    and [lim.isMinOrMaxZero()] are never both false. *)
Theorem falsy_range_has_zero_bound :
  forall (V : Type) (NV : Numeric V) (lim : Lim V),
    op_bool lim || isMinOrMaxZero lim = true.
Proof.
  intros V NV lim. unfold op_bool, isMinOrMaxZero. cbv zeta.
  rewrite !vne_veq. destruct (veq (max lim) vzero), (veq (min lim) vzero); reflexivity.
Qed.

(** X4. [==] on ranges is symmetric, for [Lim<float>] and [Lim<int>]. *)
Theorem op_eq_symmetric :
  (forall a b : Lim F32.float, op_eq a b = op_eq b a) /\
  (forall a b : Lim Z, op_eq a b = op_eq b a).
Proof.
  split; intros a b; unfold op_eq.
  - now rewrite (float_veq_sym (min a)), (float_veq_sym (max a)).
  - cbn [veq int_Numeric]. now rewrite (Z.eqb_sym (min a)), (Z.eqb_sym (max a)).
Qed.

(** X5. A [Lim<float>] compares equal to itself exactly when neither
    bound is a NaN. *)
Theorem op_eq_self_iff_no_nan :
  forall r : Lim F32.float,
    op_eq r r = true <-> min r <> F32.nan /\ max r <> F32.nan.
Proof.
  intros r. unfold op_eq. rewrite andb_true_iff.
  now rewrite !float_veq_self.
Qed.

(** X6. Ranges that compare equal convert to the same [bool] and agree
    on [isMinOrMaxZero()], for [Lim<float>] and [Lim<int>]. *)
Theorem equal_ranges_test_alike :
  (forall a b : Lim F32.float,
      op_eq a b = true ->
      op_bool a = op_bool b /\ isMinOrMaxZero a = isMinOrMaxZero b) /\
  (forall a b : Lim Z,
      op_eq a b = true ->
      op_bool a = op_bool b /\ isMinOrMaxZero a = isMinOrMaxZero b).
Proof.
  split; intros a b E; unfold op_eq in E; apply andb_true_iff in E as [Emin Emax].
  - unfold op_bool, isMinOrMaxZero. cbv zeta. rewrite !vne_veq.
    now rewrite (float_veq_zero_congr _ _ Emin), (float_veq_zero_congr _ _ Emax).
  - apply Z.eqb_eq in Emin, Emax. destruct a, b. cbn [min max] in *. now subst.
Qed.

Lemma equal_ranges_signed_zeros :
  let a : Lim F32.float := mkLim (S754_zero true) (F32.of_Z 5) in
  let b : Lim F32.float := mkLim (F32.of_Z 0) (F32.of_Z 5) in
  op_eq a b = true /\
  op_bool a = op_bool b /\ isMinOrMaxZero a = isMinOrMaxZero b.
Proof.
  intros a b. split; [reflexivity |].
  apply (proj1 equal_ranges_test_alike a b). reflexivity.
Defined.

(** X7. [lim /= val] is undefined exactly when one of the quotients
    [lim.min / val], [lim.max / val] is undefined; otherwise it returns
    [lim], now holding the two quotients, every other object as it was. *)
Theorem op_div_assign_defined_iff_quotients :
  forall (V : Type) (NV : Numeric V) (s : gmap loc (Lim V)) (this : loc)
         (lim : Lim V) (val : V),
    s !! this = Some lim ->
    (op_div_assign this val s = None <->
       vdiv (min lim) val = None \/ vdiv (max lim) val = None) /\
    (forall mn mx,
       vdiv (min lim) val = Some mn ->
       vdiv (max lim) val = Some mx ->
       exists s',
         op_div_assign this val s = Some (this, s') /\
         s' !! this = Some (mkLim mn mx) /\
         (forall o, o <> this -> s' !! o = s !! o)).
Proof.
  intros V NV s this lim val E. split.
  - split.
    + intros Hnone.
      destruct (vdiv (min lim) val) as [mn |] eqn:Hmn; [| now left].
      destruct (vdiv (max lim) val) as [mx |] eqn:Hmx; [| now right].
      rewrite (op_div_assign_run s this lim val mn mx E Hmn Hmx) in Hnone.
      discriminate Hnone.
    + now apply op_div_assign_undefined.
  - intros mn mx Hmn Hmx. exists (<[this := mkLim mn mx]> s).
    split; [now apply op_div_assign_run with (l := lim) |].
    split; [apply lookup_insert_eq |].
    intros o Ho. now rewrite lookup_insert_ne.
Qed.

Lemma op_div_assign_int_by_zero :
  let s : gmap loc (Lim Z) := {[ 1%positive := mkLim 10 20 ]} in
  s !! 1%positive = Some (mkLim 10 20) /\
  vdiv (10 : Z) 0 = None /\
  op_div_assign 1%positive 0 s = None.
Proof.
  intros s.
  assert (E : s !! 1%positive = Some (mkLim 10 20)) by (vm_compute; reflexivity).
  split; [exact E |]. split; [reflexivity |].
  apply (proj1 (op_div_assign_defined_iff_quotients Z int_Numeric s 1%positive
                  (mkLim 10 20) 0 E)).
  left. reflexivity.
Defined.

(** X8. Self-assignment [lim = lim] leaves the store as it was. *)
Theorem self_assignment_is_noop :
  forall (V : Type) (NV : Numeric V) (s : gmap loc (Lim V)) (this : loc) (lim : Lim V),
    s !! this = Some lim ->
    assign_stmt this this s = Some (this, s).
Proof.
  intros V NV s this lim E. unfold assign_stmt. rewrite E.
  rewrite (op_assign_run s this lim lim E). now rewrite insert_id.
Qed.

Lemma self_assignment_1_2 :
  let s : gmap loc (Lim Z) := {[ 1%positive := mkLim 1 2 ]} in
  s !! 1%positive = Some (mkLim 1 2) /\
  assign_stmt 1%positive 1%positive s = Some (1%positive, s).
Proof.
  intros s.
  assert (E : s !! 1%positive = Some (mkLim 1 2)) by (vm_compute; reflexivity).
  split; [exact E |].
  exact (self_assignment_is_noop Z int_Numeric s 1%positive (mkLim 1 2) E).
Defined.

(** X9. Dividing a [Lim<float>] in place by a scalar that is neither
    zero nor NaN keeps a zero bound zero: if [isMinOrMaxZero()] held
    before [lim /= val], it holds after. *)
Theorem float_division_keeps_zero_bound :
  forall (s : gmap loc (Lim F32.float)) (this : loc) (lim : Lim F32.float)
         (val : F32.float),
    s !! this = Some lim ->
    isMinOrMaxZero lim = true ->
    val <> F32.nan ->
    veq val vzero = false ->
    exists s' lim',
      op_div_assign this val s = Some (this, s') /\
      s' !! this = Some lim' /\
      isMinOrMaxZero lim' = true.
Proof.
  intros s this lim val E Hz Hnan Hval.
  exists (<[this := mkLim (F32.div (min lim) val) (F32.div (max lim) val)]> s),
         (mkLim (F32.div (min lim) val) (F32.div (max lim) val)).
  split; [now apply op_div_assign_run with (l := lim) |].
  split; [apply lookup_insert_eq |].
  unfold isMinOrMaxZero in *. cbv zeta in *. cbn [min max].
  apply orb_true_iff in Hz as [Hmax | Hmin]; apply orb_true_iff.
  - left. now apply float_div_zero_l.
  - right. now apply float_div_zero_l.
Qed.

Lemma float_division_keeps_zero_bound_0_5 :
  let lim : Lim F32.float := mkLim (F32.of_Z 0) (F32.of_Z 5) in
  let s : gmap loc (Lim F32.float) := {[ 1%positive := lim ]} in
  (s !! 1%positive = Some lim /\ isMinOrMaxZero lim = true /\
   F32.of_Z (-2) <> F32.nan /\ veq (F32.of_Z (-2)) vzero = false) /\
  exists s' lim',
    op_div_assign 1%positive (F32.of_Z (-2)) s = Some (1%positive, s') /\
    s' !! 1%positive = Some lim' /\
    isMinOrMaxZero lim' = true.
Proof.
  intros lim s.
  assert (H0 : s !! 1%positive = Some lim) by (vm_compute; reflexivity).
  assert (H1 : isMinOrMaxZero lim = true) by reflexivity.
  assert (H2 : F32.of_Z (-2) <> F32.nan) by (vm_compute; discriminate).
  assert (H3 : veq (F32.of_Z (-2)) vzero = false) by reflexivity.
  split; [auto |].
  exact (float_division_keeps_zero_bound s 1%positive lim (F32.of_Z (-2)) H0 H1 H2 H3).
Defined.

(** * Further properties of [Marker::getMarkerPathFrom] *)

(** X10. In the recording toolkit, for each of the seven marker types
    the first call on the path adds a shape and every later call is a
    transform; for every other type value the path has no call at all. *)
Theorem one_shape_iff_recognized :
  forall (marker : Marker (JUCE := recording)) (length : F32.float),
    oneShapeThenTransforms (getMarkerPathFrom marker length)
      = recognized (type marker) /\
    (getMarkerPathFrom marker length = [] <-> recognized (type marker) = false).
Proof.
  intros marker length. rewrite getMarkerPathFrom_only_type.
  unfold getMarkerPathFrom. cbn [type Marker_of_type].
  destruct (type marker) as [| p | p]; [split; [reflexivity | split; discriminate] | |
                                        split; [reflexivity | split; reflexivity]].
  destruct p as [[[p | p |] | [p | p |] |] | [[p | p |] | [p | p |] |] |];
    (split; [reflexivity | split; solve [reflexivity | discriminate]]).
Qed.

(** X11. Negating the length turns the up triangle upside down: the
    triangle built for [-length] has its apex where the base of the one
    for [length] lies and its base where that apex lies, the two base
    corners in the opposite order. *)
Theorem negated_length_flips_UpTriangle :
  forall (JUCE : PathToolkit) (length : F32.float),
    let '(apex, b1, b2) := upTriangleVertices length in
    getMarkerPathFrom (Marker_of_type UpTriangle) (F32.opp length)
    = addTriangle (mkPoint (px apex) (py b1))
                  (mkPoint (px b2) (py apex))
                  (mkPoint (px b1) (py apex)) Path_new.
Proof.
  intros JUCE length. unfold upTriangleVertices. cbn [px py].
  rewrite getMarkerPathFrom_UpTriangle. unfold addUpTriangleTo, upTriangleVertices.
  now rewrite opp_involutive.
Qed.

(** X12. The first vertex of the up triangle, [(0, -length/2)], lies
    strictly above the other two, which share [y = length/2], exactly
    when [length / 2.0f] is greater than zero. *)
Theorem UpTriangle_apex_above_base_iff :
  forall length : F32.float,
    let '(apex, b1, b2) := upTriangleVertices length in
    py b1 = py b2 /\
    (F32.ltb (py apex) (py b1) = true
     <-> F32.ltb (F32.of_Z 0) (F32.div length (F32.of_Z 2)) = true).
Proof.
  intros length. unfold upTriangleVertices. cbn [px py].
  split; [reflexivity |].
  change (F32.ltb (negHalfOf length) (halfOf length) = true
          <-> F32.ltb (F32.of_Z 0) (halfOf length) = true).
  rewrite negHalfOf_opp. split; [apply pos_of_opp_ltb | apply opp_ltb_of_pos].
Qed.

(** * Further properties of [iota_delta] *)

Section IotaDeltaMore.
Context {V : Type} `{Additive V}.
Implicit Types (buf : list V) (dx : V).

Lemma nthValue_add a b (x0 : V) dx :
  nthValue (a + b) x0 dx = nthValue b (nthValue a x0 dx) dx.
Proof.
  induction b as [| b IH].
  - now rewrite Nat.add_0_r.
  - rewrite Nat.add_succ_r. cbn [nthValue]. now rewrite IH.
Qed.

(** The plain loop on a range that fits, with fuel to spare. *)
Lemma iota_delta_run fuel first last (x0 : V) dx buf :
  (first <= last)%nat -> (last <= length buf)%nat -> (last - first < fuel)%nat ->
  exists buf',
    iota_delta fuel first last x0 dx buf = Returned buf' /\
    length buf' = length buf /\
    (forall i, (i < last - first)%nat ->
       buf' !! (first + i)%nat = Some (nthValue i x0 dx)) /\
    (forall j, (j < first \/ last <= j)%nat -> buf' !! j = buf !! j).
Proof.
  intros Hle Hlen Hfuel. rewrite iota_delta_as_f.
  destruct (iota_delta_f_run (fun x => x) (last - first) fuel first x0 dx buf)
    as (buf' & Hrun & Hl & Hin & Hout); [lia | lia |].
  replace (first + (last - first))%nat with last in * by lia.
  exists buf'. split; [exact Hrun |]. split; [exact Hl |]. split; [exact Hin |].
  intros j Hj. apply Hout. lia.
Qed.

(** Two sequences of one length that agree outside [first, last) and hold
    the same values inside it are equal. *)
Lemma range_filled_unique first last (vals : nat -> V) (b1 b2 : list V) :
  (first <= last)%nat ->
  length b1 = length b2 ->
  (forall i, (i < last - first)%nat -> b1 !! (first + i)%nat = Some (vals i)) ->
  (forall i, (i < last - first)%nat -> b2 !! (first + i)%nat = Some (vals i)) ->
  (forall j, (j < first \/ last <= j)%nat -> b1 !! j = b2 !! j) ->
  b1 = b2.
Proof.
  intros Hle Hlen H1 H2 Hout. apply list_eq. intros j.
  destruct (decide (first <= j < last)%nat) as [Hin | Hnot].
  - replace j with (first + (j - first))%nat by lia.
    rewrite H1, H2 by lia. reflexivity.
  - apply Hout. lia.
Qed.

(** Off a range that is not one, the loop runs until it writes past the
    end. *)
Lemma iota_delta_f_runs_off (g : V -> V) last dx :
  forall k fuel first (x0 : V) buf,
    (length buf - first = k)%nat ->
    first <> last ->
    (last < first \/ length buf < last)%nat ->
    (k < fuel)%nat ->
    iota_delta_f fuel first last x0 dx (Some g) buf = Undefined.
Proof.
  induction k as [| k IH]; intros fuel first x0 buf Hk Hne Hbad Hfuel;
    destruct fuel as [| fuel]; try lia; cbn [iota_delta_f].
  - case_decide; [| congruence]. case_decide; [lia | reflexivity].
  - case_decide; [| congruence]. case_decide; [| lia].
    apply IH; rewrite ?length_insert; lia.
Qed.

End IotaDeltaMore.

(** X13. The first overload is the second one run with the identity as
    [f]: on every input the two calls end alike. *)
Theorem iota_delta_overloads_agree :
  forall (V : Type) (AV : Additive V) (fuel first last : nat) (x0 dx : V)
         (buf : list V),
    iota_delta fuel first last x0 dx buf
    = iota_delta_f fuel first last x0 dx (Some (fun x => x)) buf.
Proof. intros V AV fuel first last x0 dx buf. apply iota_delta_as_f. Qed.

(** X14. The range must be one: when [first] differs from [last] and
    either lies behind [last] or [last] lies past the end of the
    sequence, both overloads keep writing until they write past the end,
    which is undefined. *)
Theorem iota_delta_invalid_range_undefined :
  forall (V : Type) (AV : Additive V) (buf : list V) (first last : nat)
         (x0 dx : V) (fuel : nat),
    first <> last ->
    (last < first \/ length buf < last)%nat ->
    (length buf - first < fuel)%nat ->
    iota_delta fuel first last x0 dx buf = Undefined /\
    (forall f : V -> V,
        iota_delta_f fuel first last x0 dx (Some f) buf = Undefined).
Proof.
  intros V AV buf first last x0 dx fuel Hne Hbad Hfuel.
  assert (Hgen : forall g : V -> V,
             iota_delta_f fuel first last x0 dx (Some g) buf = Undefined).
  { intros g. now apply iota_delta_f_runs_off with (k := (length buf - first)%nat). }
  split; [| exact Hgen]. rewrite iota_delta_as_f. apply Hgen.
Qed.

Lemma iota_delta_reversed_range :
  (3 <> 1)%nat /\
  ((1 < 3 \/ length [0; 0; 0; 0; 0]%N < 1)%nat) /\
  (length [0; 0; 0; 0; 0]%N - 3 < 3)%nat /\
  iota_delta 3 3 1 10%N 5%N [0; 0; 0; 0; 0]%N = Undefined.
Proof.
  assert (H1 : (3 <> 1)%nat) by lia.
  assert (H2 : (1 < 3 \/ length [0; 0; 0; 0; 0]%N < 1)%nat) by (left; lia).
  assert (H3 : (length [0; 0; 0; 0; 0]%N - 3 < 3)%nat) by (simpl; lia).
  split; [exact H1 |]. split; [exact H2 |]. split; [exact H3 |].
  exact (proj1 (iota_delta_invalid_range_undefined N uint32_Additive
                  [0; 0; 0; 0; 0]%N 3 1 10%N 5%N 3 H1 H2 H3)).
Defined.

(** X15. What the range held before does not matter: on two sequences of
    one length that agree outside [first, last) the call returns the same
    sequence, and calling it again on that result returns it unchanged. *)
Theorem iota_delta_overwrites_range :
  forall (V : Type) (AV : Additive V) (buf1 buf2 : list V) (first last : nat)
         (x0 dx : V) (fuel : nat),
    (first <= last)%nat ->
    (last <= length buf1)%nat ->
    length buf1 = length buf2 ->
    (forall j, (j < first \/ last <= j)%nat -> buf1 !! j = buf2 !! j) ->
    (last - first < fuel)%nat ->
    exists buf',
      iota_delta fuel first last x0 dx buf1 = Returned buf' /\
      iota_delta fuel first last x0 dx buf2 = Returned buf' /\
      iota_delta fuel first last x0 dx buf' = Returned buf'.
Proof.
  intros V AV buf1 buf2 first last x0 dx fuel Hle Hlen Hsame Hout Hfuel.
  destruct (iota_delta_run fuel first last x0 dx buf1 Hle Hlen Hfuel)
    as (b1 & R1 & L1 & I1 & O1).
  destruct (iota_delta_run fuel first last x0 dx buf2 Hle ltac:(lia) Hfuel)
    as (b2 & R2 & L2 & I2 & O2).
  destruct (iota_delta_run fuel first last x0 dx b1 Hle ltac:(lia) Hfuel)
    as (b3 & R3 & L3 & I3 & O3).
  exists b1. split; [exact R1 |]. split.
  - rewrite R2. f_equal.
    apply (range_filled_unique first last (fun i => nthValue i x0 dx)); auto; try lia.
    intros j Hj. now rewrite O2, O1, Hout.
  - rewrite R3. f_equal.
    apply (range_filled_unique first last (fun i => nthValue i x0 dx)); auto.
Qed.

Lemma iota_delta_overwrites_middle_three :
  let buf1 := [0; 1; 2; 3; 4]%N in
  let buf2 := [0; 7; 7; 7; 4]%N in
  ((1 <= 4)%nat /\ (4 <= length buf1)%nat /\ length buf1 = length buf2 /\
   (forall j, (j < 1 \/ 4 <= j)%nat -> buf1 !! j = buf2 !! j) /\
   (4 - 1 < 4)%nat) /\
  exists buf',
    iota_delta 4 1 4 10%N 5%N buf1 = Returned buf' /\
    iota_delta 4 1 4 10%N 5%N buf2 = Returned buf' /\
    iota_delta 4 1 4 10%N 5%N buf' = Returned buf'.
Proof.
  intros buf1 buf2.
  assert (H1 : (1 <= 4)%nat) by lia.
  assert (H2 : (4 <= length buf1)%nat) by (simpl; lia).
  assert (H3 : length buf1 = length buf2) by reflexivity.
  assert (H4 : forall j, (j < 1 \/ 4 <= j)%nat -> buf1 !! j = buf2 !! j).
  { intros j Hj. destruct j as [| [| [| [| j]]]]; try reflexivity; lia. }
  assert (H5 : (4 - 1 < 4)%nat) by (simpl; lia).
  split; [auto |].
  exact (iota_delta_overwrites_range N uint32_Additive buf1 buf2 1 4 10%N 5%N 4
           H1 H2 H3 H4 H5).
Defined.

(** X16. A range can be filled in two calls: filling [first, mid) from
    [x0] and then [mid, last) from the value the first call stopped at
    gives what one call on [first, last) gives. *)
Theorem iota_delta_splits :
  forall (V : Type) (AV : Additive V) (buf : list V) (first mid last : nat)
         (x0 dx : V) (fuel : nat),
    (first <= mid)%nat ->
    (mid <= last)%nat ->
    (last <= length buf)%nat ->
    (last - first < fuel)%nat ->
    exists part whole,
      iota_delta fuel first mid x0 dx buf = Returned part /\
      iota_delta fuel mid last (nthValue (mid - first) x0 dx) dx part = Returned whole /\
      iota_delta fuel first last x0 dx buf = Returned whole.
Proof.
  intros V AV buf first mid last x0 dx fuel Hfm Hml Hlen Hfuel.
  destruct (iota_delta_run fuel first mid x0 dx buf Hfm ltac:(lia) ltac:(lia))
    as (part & R1 & L1 & I1 & O1).
  destruct (iota_delta_run fuel mid last (nthValue (mid - first) x0 dx) dx part
              Hml ltac:(lia) ltac:(lia))
    as (whole & R2 & L2 & I2 & O2).
  destruct (iota_delta_run fuel first last x0 dx buf ltac:(lia) Hlen Hfuel)
    as (direct & R3 & L3 & I3 & O3).
  exists part, whole. split; [exact R1 |]. split; [exact R2 |].
  rewrite R3. f_equal.
  apply (range_filled_unique first last (fun i => nthValue i x0 dx));
    [lia | lia | exact I3 | |].
  - intros i Hi. destruct (decide (i < mid - first)%nat) as [Hlow | Hhigh].
    + rewrite O2 by lia. apply I1. lia.
    + replace (first + i)%nat with (mid + (i - (mid - first)))%nat by lia.
      rewrite I2 by lia. rewrite <- nthValue_add. do 2 f_equal. lia.
  - intros j Hj. rewrite O3 by lia. rewrite O2 by lia. rewrite O1 by lia.
    reflexivity.
Qed.

Lemma iota_delta_splits_middle_three :
  let buf := [0; 0; 0; 0; 0]%N in
  ((1 <= 2)%nat /\ (2 <= 4)%nat /\ (4 <= length buf)%nat /\ (4 - 1 < 4)%nat) /\
  exists part whole,
    iota_delta 4 1 2 10%N 5%N buf = Returned part /\
    iota_delta 4 2 4 (nthValue (2 - 1) 10%N 5%N) 5%N part = Returned whole /\
    iota_delta 4 1 4 10%N 5%N buf = Returned whole.
Proof.
  intros buf.
  assert (H1 : (1 <= 2)%nat) by lia.
  assert (H2 : (2 <= 4)%nat) by lia.
  assert (H3 : (4 <= length buf)%nat) by (simpl; lia).
  assert (H4 : (4 - 1 < 4)%nat) by (simpl; lia).
  split; [auto |].
  exact (iota_delta_splits N uint32_Additive buf 1 2 4 10%N 5%N 4 H1 H2 H3 H4).
Defined.

(** X17. On [uint32_t] the sums wrap around: after the call position
    [first + i] holds [(x0 + i * dx) mod 2^32]. *)
Theorem iota_delta_uint32_wraps :
  forall (buf : list N) (first last : nat) (x0 dx : N) (fuel : nat),
    (first <= last)%nat ->
    (last <= length buf)%nat ->
    (last - first < fuel)%nat ->
    (x0 < 2 ^ 32)%N ->
    exists buf',
      iota_delta fuel first last x0 dx buf = Returned buf' /\
      (forall i, (i < last - first)%nat ->
         buf' !! (first + i)%nat = Some ((x0 + N.of_nat i * dx) mod 2 ^ 32)%N).
Proof.
  intros buf first last x0 dx fuel Hle Hlen Hfuel Hx.
  destruct (iota_delta_run fuel first last x0 dx buf Hle Hlen Hfuel)
    as (buf' & R & _ & I & _).
  exists buf'. split; [exact R |].
  intros i Hi. rewrite (I i Hi). f_equal. now apply nthValue_uint32.
Qed.

Lemma iota_delta_uint32_wraps_at_top :
  let buf := [0; 0; 0]%N in
  ((0 <= 3)%nat /\ (3 <= length buf)%nat /\ (3 - 0 < 4)%nat /\
   (4294967295 < 2 ^ 32)%N) /\
  exists buf',
    iota_delta 4 0 3 4294967295%N 1%N buf = Returned buf' /\
    (forall i, (i < 3 - 0)%nat ->
       buf' !! (0 + i)%nat = Some ((4294967295 + N.of_nat i * 1) mod 2 ^ 32)%N).
Proof.
  intros buf.
  assert (H1 : (0 <= 3)%nat) by lia.
  assert (H2 : (3 <= length buf)%nat) by (simpl; lia).
  assert (H3 : (3 - 0 < 4)%nat) by (simpl; lia).
  assert (H4 : (4294967295 < 2 ^ 32)%N) by (vm_compute; reflexivity).
  split; [auto |].
  exact (iota_delta_uint32_wraps buf 0 3 4294967295%N 1%N 4 H1 H2 H3 H4).
Defined.

Example iota_delta_uint32_wraps_values :
  iota_delta 4 0 3 4294967295%N 1%N [7; 7; 7]%N = Returned [4294967295; 0; 1]%N.
Proof. vm_compute. reflexivity. Qed.
